(** * The image-masking editor of suiyingxiaochu: viewport, strokes, mask

    A shallow embedding of [src/types.ts], [src/components/ImageEditor.tsx]
    and the generation handler of [src/App.tsx].

    Conventions of the embedding.
    - A JavaScript [number] is a rational ([Q]): the arithmetic of the
      editor is [+ - * /], [Math.min] and [Math.max], which [Q] computes
      exactly.  Equalities between computed numbers are stated with [==]
      ([Qeq]); "unchanged" is stated with Leibniz equality.  Division is
      only used in the theorems where the divisor is positive, where [Q]
      and IEEE arithmetic agree up to rounding.
    - A React component instance is a record holding its [useState] cells,
      its refs and the props the handlers read.  Each event handler is a
      function from the instance at the time the handler runs to the
      instance after React has applied the queued updates; a handler reads
      the values of its render closure, i.e. of its argument.
    - The asynchronous [handleGenerate] is split at its single [await]. *)

From Stdlib Require Import QArith Qminmax Lqa Lia.
From Stdlib Require Import String Bool List.
Import ListNotations.

Open Scope Q_scope.

(** ** [src/types.ts] *)

Record Point : Type := mkPoint { x : Q; y : Q }.

Record DrawPath : Type := mkDrawPath { points : list Point; size : Q }.

Inductive EditorMode : Type := DRAW | PAN.

Record ImageDimensions : Type := mkImage { width : Q; height : Q }.

Definition EditorMode_eqb (a b : EditorMode) : bool :=
  match a, b with
  | DRAW, DRAW | PAN, PAN => true
  | _, _ => false
  end.

(** Two points denote the same position. *)
Definition Point_eq (p q : Point) : Prop := x p == x q /\ y p == y q.

(** ** The pieces of the browser the application talks to *)

(** [Math.min(a, ...rest)] and [Math.max(a, ...rest)]. *)
Definition Math_min (a : Q) (rest : list Q) : Q := fold_left Qmin rest a.
Definition Math_max (a : Q) (rest : list Q) : Q := fold_left Qmax rest a.

(** The container [div]: what [getBoundingClientRect()], [clientWidth] and
    [clientHeight] answer. *)
Record Container : Type := mkContainer {
  rect_left : Q;
  rect_top : Q;
  clientWidth : Q;
  clientHeight : Q
}.

(** [React.MouseEvent | React.TouchEvent].  A [touchstart] or [touchmove]
    event has at least one entry in [touches]; [touches[0]] is [touch0]. *)
Inductive InputEvent : Type :=
| MouseEvent (mouseX mouseY : Q)
| TouchEvent (touch0 : Point) (others : list Point).

(** ['touches' in e ? e.touches[0].clientX : e.clientX], and the same for Y. *)
Definition clientX (e : InputEvent) : Q :=
  match e with
  | MouseEvent cx _ => cx
  | TouchEvent t _ => x t
  end.

Definition clientY (e : InputEvent) : Q :=
  match e with
  | MouseEvent _ cy => cy
  | TouchEvent t _ => y t
  end.

(** *** The 2D canvas

    A canvas is its size and the list of paint operations applied to it,
    oldest first; the context carries the drawing state the editor sets. *)

Inductive PathCommand : Type :=
| MoveTo (p : Point)
| LineTo (p : Point).

Inductive Paint : Type :=
| FillRect (style : string) (x0 y0 w h : Q)
| StrokePath (style : string) (lineWidth : Q) (lineCap lineJoin : string)
    (path : list PathCommand).

Record Canvas : Type := mkCanvas {
  canvas_width : Q;
  canvas_height : Q;
  painted : list Paint
}.

Record Context2D : Type := mkContext {
  canvas : Canvas;
  fillStyle : string;
  strokeStyle : string;
  lineWidth : Q;
  lineCap : string;
  lineJoin : string;
  currentSubpath : list PathCommand
}.

(** [document.createElement('canvas')] with [width] and [height] assigned,
    and its fresh ['2d'] context with the default drawing state. *)
Definition createCanvas (w h : Q) : Canvas := mkCanvas w h [].

Definition getContext (c : Canvas) : Context2D :=
  mkContext c "#000000" "#000000" 1 "butt" "miter" [].

Definition paint (op : Paint) (ctx : Context2D) : Context2D :=
  mkContext
    (mkCanvas (canvas_width (canvas ctx)) (canvas_height (canvas ctx))
       (painted (canvas ctx) ++ [op]))
    (fillStyle ctx) (strokeStyle ctx) (lineWidth ctx) (lineCap ctx)
    (lineJoin ctx) (currentSubpath ctx).

Definition set_fillStyle (v : string) (ctx : Context2D) : Context2D :=
  mkContext (canvas ctx) v (strokeStyle ctx) (lineWidth ctx) (lineCap ctx)
    (lineJoin ctx) (currentSubpath ctx).

Definition set_strokeStyle (v : string) (ctx : Context2D) : Context2D :=
  mkContext (canvas ctx) (fillStyle ctx) v (lineWidth ctx) (lineCap ctx)
    (lineJoin ctx) (currentSubpath ctx).

Definition set_lineWidth (v : Q) (ctx : Context2D) : Context2D :=
  mkContext (canvas ctx) (fillStyle ctx) (strokeStyle ctx) v (lineCap ctx)
    (lineJoin ctx) (currentSubpath ctx).

Definition set_lineCap (v : string) (ctx : Context2D) : Context2D :=
  mkContext (canvas ctx) (fillStyle ctx) (strokeStyle ctx) (lineWidth ctx) v
    (lineJoin ctx) (currentSubpath ctx).

Definition set_lineJoin (v : string) (ctx : Context2D) : Context2D :=
  mkContext (canvas ctx) (fillStyle ctx) (strokeStyle ctx) (lineWidth ctx)
    (lineCap ctx) v (currentSubpath ctx).

Definition set_subpath (v : list PathCommand) (ctx : Context2D) : Context2D :=
  mkContext (canvas ctx) (fillStyle ctx) (strokeStyle ctx) (lineWidth ctx)
    (lineCap ctx) (lineJoin ctx) v.

Definition fillRect (x0 y0 w h : Q) (ctx : Context2D) : Context2D :=
  paint (FillRect (fillStyle ctx) x0 y0 w h) ctx.

Definition beginPath (ctx : Context2D) : Context2D := set_subpath [] ctx.

Definition moveTo (p : Point) (ctx : Context2D) : Context2D :=
  set_subpath (currentSubpath ctx ++ [MoveTo p]) ctx.

Definition lineTo (p : Point) (ctx : Context2D) : Context2D :=
  set_subpath (currentSubpath ctx ++ [LineTo p]) ctx.

Definition stroke (ctx : Context2D) : Context2D :=
  paint
    (StrokePath (strokeStyle ctx) (lineWidth ctx) (lineCap ctx) (lineJoin ctx)
       (currentSubpath ctx))
    ctx.

(** A base64 data URL: the bytes of an uploaded or returned file, or what
    [canvas.toDataURL('image/png')] encodes. *)
Inductive DataURL : Type :=
| FileData (bytes : string)
| CanvasPNG (c : Canvas).

Definition toDataURL (c : Canvas) : DataURL := CanvasPNG c.

(** *** The visible canvas

    The canvas on screen also receives [clearRect] and [drawImage].  What
    it shows is the list of those operations and of the paint operations,
    oldest first.  A context on it is a pen (a [Context2D] whose canvas
    collects the paint operations made since the last [clearRect] or
    [drawImage]), the layers settled before, and the stack of [save]. *)

Inductive Layer : Type :=
| ClearRect (x0 y0 w h : Q)
| DrawImage (img : ImageDimensions) (dx dy : Q)
| Ink (op : Paint).

Record Surface : Type := mkSurface {
  surface_width : Q;
  surface_height : Q;
  layers : list Layer
}.

Record Screen : Type := mkScreen {
  settled : list Layer;
  pen : Context2D;
  saved : list Context2D
}.

Definition layersOf (sc : Screen) : list Layer :=
  settled sc ++ map Ink (painted (canvas (pen sc))).

Definition emit (l : Layer) (sc : Screen) : Screen :=
  mkScreen (layersOf sc ++ [l])
    (mkContext
       (mkCanvas (canvas_width (canvas (pen sc)))
          (canvas_height (canvas (pen sc))) [])
       (fillStyle (pen sc)) (strokeStyle (pen sc)) (lineWidth (pen sc))
       (lineCap (pen sc)) (lineJoin (pen sc)) (currentSubpath (pen sc)))
    (saved sc).

Definition clearRect (x0 y0 w h : Q) (sc : Screen) : Screen :=
  emit (ClearRect x0 y0 w h) sc.

Definition drawImage (img : ImageDimensions) (dx dy : Q) (sc : Screen) : Screen :=
  emit (DrawImage img dx dy) sc.

(** A call that only concerns the drawing state and the paint. *)
Definition withPen (f : Context2D -> Context2D) (sc : Screen) : Screen :=
  mkScreen (settled sc) (f (pen sc)) (saved sc).

(** [ctx.save()] and [ctx.restore()]: the drawing state is pushed and
    popped; the canvas content and the current path are not part of it. *)
Definition save (sc : Screen) : Screen :=
  mkScreen (settled sc) (pen sc) (pen sc :: saved sc).

Definition restore (sc : Screen) : Screen :=
  match saved sc with
  | [] => sc
  | top :: rest =>
      mkScreen (settled sc)
        (mkContext (canvas (pen sc)) (fillStyle top) (strokeStyle top)
           (lineWidth top) (lineCap top) (lineJoin top)
           (currentSubpath (pen sc)))
        rest
  end.

(** Assigning [canvas.width] and [canvas.height] empties the canvas and
    resets its context. *)
Definition resize (w h : Q) : Screen :=
  mkScreen [] (getContext (createCanvas w h)) [].

Definition surfaceOf (sc : Screen) : Surface :=
  mkSurface (canvas_width (canvas (pen sc))) (canvas_height (canvas (pen sc)))
    (layersOf sc).

(** The paint operation of a stroke, with another colour. *)
Definition recolour (style : string) (op : Paint) : Paint :=
  match op with
  | StrokePath _ w cap join path => StrokePath style w cap join path
  | FillRect _ x0 y0 w h => FillRect style x0 y0 w h
  end.

(** ** [src/components/ImageEditor.tsx] *)

Module ImageEditor.

Record Editor : Type := mkEditor {
  (* props *)
  isProcessing : bool;
  (* refs *)
  containerRef : option Container;
  imageRef : option ImageDimensions;
  (* editor state *)
  mode : EditorMode;
  brushSize : Q;
  paths : list DrawPath;
  (* viewport state *)
  scale : Q;
  offset : Point;
  isDragging : bool;
  lastMousePos : Point;
  (* drawing state *)
  isDrawing : bool;
  currentPath : list Point
}.

(** The values given to [useState] and [useRef] on mount. *)
Definition initialEditor (busy : bool) : Editor :=
  {| isProcessing := busy;
     containerRef := None;
     imageRef := None;
     mode := DRAW;
     brushSize := 20;
     paths := [];
     scale := 1;
     offset := mkPoint 0 0;
     isDragging := false;
     lastMousePos := mkPoint 0 0;
     isDrawing := false;
     currentPath := [] |}.

(** The state setters returned by [useState], and the assignments to the
    refs and the prop. *)
Definition withProcessing (v : bool) (s : Editor) : Editor :=
  mkEditor v (containerRef s) (imageRef s) (mode s) (brushSize s) (paths s)
    (scale s) (offset s) (isDragging s) (lastMousePos s) (isDrawing s)
    (currentPath s).

Definition withContainerRef (v : option Container) (s : Editor) : Editor :=
  mkEditor (isProcessing s) v (imageRef s) (mode s) (brushSize s) (paths s)
    (scale s) (offset s) (isDragging s) (lastMousePos s) (isDrawing s)
    (currentPath s).

Definition withImageRef (v : option ImageDimensions) (s : Editor) : Editor :=
  mkEditor (isProcessing s) (containerRef s) v (mode s) (brushSize s) (paths s)
    (scale s) (offset s) (isDragging s) (lastMousePos s) (isDrawing s)
    (currentPath s).

Definition setMode (v : EditorMode) (s : Editor) : Editor :=
  mkEditor (isProcessing s) (containerRef s) (imageRef s) v (brushSize s)
    (paths s) (scale s) (offset s) (isDragging s) (lastMousePos s)
    (isDrawing s) (currentPath s).

Definition setBrushSize (v : Q) (s : Editor) : Editor :=
  mkEditor (isProcessing s) (containerRef s) (imageRef s) (mode s) v (paths s)
    (scale s) (offset s) (isDragging s) (lastMousePos s) (isDrawing s)
    (currentPath s).

(** [setPaths(prev => f(prev))]; [setPaths(v)] is [setPaths (fun _ => v)]. *)
Definition setPaths (f : list DrawPath -> list DrawPath) (s : Editor) : Editor :=
  mkEditor (isProcessing s) (containerRef s) (imageRef s) (mode s)
    (brushSize s) (f (paths s)) (scale s) (offset s) (isDragging s)
    (lastMousePos s) (isDrawing s) (currentPath s).

Definition setScale (v : Q) (s : Editor) : Editor :=
  mkEditor (isProcessing s) (containerRef s) (imageRef s) (mode s)
    (brushSize s) (paths s) v (offset s) (isDragging s) (lastMousePos s)
    (isDrawing s) (currentPath s).

(** [setOffset(prev => f(prev))]. *)
Definition setOffset (f : Point -> Point) (s : Editor) : Editor :=
  mkEditor (isProcessing s) (containerRef s) (imageRef s) (mode s)
    (brushSize s) (paths s) (scale s) (f (offset s)) (isDragging s)
    (lastMousePos s) (isDrawing s) (currentPath s).

Definition setIsDragging (v : bool) (s : Editor) : Editor :=
  mkEditor (isProcessing s) (containerRef s) (imageRef s) (mode s)
    (brushSize s) (paths s) (scale s) (offset s) v (lastMousePos s)
    (isDrawing s) (currentPath s).

Definition setLastMousePos (v : Point) (s : Editor) : Editor :=
  mkEditor (isProcessing s) (containerRef s) (imageRef s) (mode s)
    (brushSize s) (paths s) (scale s) (offset s) (isDragging s) v
    (isDrawing s) (currentPath s).

Definition setIsDrawing (v : bool) (s : Editor) : Editor :=
  mkEditor (isProcessing s) (containerRef s) (imageRef s) (mode s)
    (brushSize s) (paths s) (scale s) (offset s) (isDragging s)
    (lastMousePos s) v (currentPath s).

(** [setCurrentPath(prev => f(prev))]. *)
Definition setCurrentPath (f : list Point -> list Point) (s : Editor) : Editor :=
  mkEditor (isProcessing s) (containerRef s) (imageRef s) (mode s)
    (brushSize s) (paths s) (scale s) (offset s) (isDragging s)
    (lastMousePos s) (isDrawing s) (f (currentPath s)).

(** *** Viewport *)

(** [fitImageToContainer], lines 42-58. *)
Definition fitImageToContainer (imgWidth imgHeight : Q) (s : Editor) : Editor :=
  match containerRef s with
  | None => s
  | Some c =>
      let scaleX := clientWidth c / imgWidth in
      let scaleY := clientHeight c / imgHeight in
      let initialScale := Math_min scaleX [scaleY; 1] * 0.9 in
      setPaths (fun _ => [])
        (setOffset (fun _ =>
             mkPoint ((clientWidth c - imgWidth * initialScale) / 2)
                     ((clientHeight c - imgHeight * initialScale) / 2))
           (setScale initialScale s))
  end.

(** The [onload] callback of the image effect, lines 35-38. *)
Definition imageOnLoad (img : ImageDimensions) (s : Editor) : Editor :=
  fitImageToContainer (width img) (height img) (withImageRef (Some img) s).

(** The pointer position relative to the container, lines 111-117. *)
Definition containerPoint (c : Container) (e : InputEvent) : Point :=
  mkPoint (clientX e - rect_left c) (clientY e - rect_top c).

(** [getRelativeCoords], lines 108-124. *)
Definition getRelativeCoords (s : Editor) (e : InputEvent) : option Point :=
  match containerRef s, imageRef s with
  | Some c, Some _ =>
      let containerX := clientX e - rect_left c in
      let containerY := clientY e - rect_top c in
      let imageX := (containerX - x (offset s)) / scale s in
      let imageY := (containerY - y (offset s)) / scale s in
      Some (mkPoint imageX imageY)
  | _, _ => None
  end.

(** The placement of the canvas in the container, lines 239-242:
    [transform: translate(offset.x px, offset.y px) scale(scale)] with
    [transformOrigin: 0 0] sends the canvas pixel [p] to
    [p * scale + offset]. *)
Definition toContainerSpace (s : Editor) (p : Point) : Point :=
  mkPoint (x p * scale s + x (offset s)) (y p * scale s + y (offset s)).

(** *** Event handlers *)

(** [handleMouseDown], lines 127-142. *)
Definition handleMouseDown (e : InputEvent) (s : Editor) : Editor :=
  if isProcessing s then s
  else if EditorMode_eqb (mode s) PAN then
    setLastMousePos (mkPoint (clientX e) (clientY e)) (setIsDragging true s)
  else
    match getRelativeCoords s e with
    | Some coords => setCurrentPath (fun _ => [coords]) (setIsDrawing true s)
    | None => s
    end.

(** [handleMouseMove], lines 144-162. *)
Definition handleMouseMove (e : InputEvent) (s : Editor) : Editor :=
  if isProcessing s then s
  else if EditorMode_eqb (mode s) PAN && isDragging s then
    let dx := clientX e - x (lastMousePos s) in
    let dy := clientY e - y (lastMousePos s) in
    setLastMousePos (mkPoint (clientX e) (clientY e))
      (setOffset (fun prev => mkPoint (x prev + dx) (y prev + dy)) s)
  else if EditorMode_eqb (mode s) DRAW && isDrawing s then
    match getRelativeCoords s e with
    | Some coords => setCurrentPath (fun prev => prev ++ [coords]) s
    | None => s
    end
  else s.

(** [handleMouseUp], lines 164-174; also bound to [onMouseLeave] and
    [onTouchEnd]. *)
Definition handleMouseUp (s : Editor) : Editor :=
  if EditorMode_eqb (mode s) PAN then setIsDragging false s
  else if EditorMode_eqb (mode s) DRAW && isDrawing s then
    let s1 := setIsDrawing false s in
    match currentPath s with
    | [] => s1
    | _ :: _ =>
        setCurrentPath (fun _ => [])
          (setPaths
             (fun prev => prev ++ [mkDrawPath (currentPath s) (brushSize s)])
             s1)
    end
  else s.

(** [handleWheel], lines 176-180. *)
Definition handleWheel (deltaY : Q) (s : Editor) : Editor :=
  let newScale := Math_max 0.1 [Math_min 5 [scale s - deltaY * 0.001]] in
  setScale newScale s.

(** [undo] and [reset], lines 213-219. *)
Definition undo (s : Editor) : Editor :=
  setPaths (fun prev => firstn (length prev - 1) prev) s.

Definition reset (s : Editor) : Editor := setPaths (fun _ => []) s.

(** The undo, reset and generate buttons carry
    [disabled={paths.length === 0 || isProcessing}]. *)
Definition actionsDisabled (s : Editor) : bool :=
  (Nat.eqb (length (paths s)) 0 || isProcessing s)%bool.

(** [generateMask], lines 182-211: the mask handed to [onGenerate], or
    nothing when no image is loaded.  A canvas that was just created has a
    ['2d'] context, so the [if (!ctx) return] guard is not taken. *)
Definition strokeMaskPath (ctx : Context2D) (path : DrawPath) : Context2D :=
  match points path with
  | [] => ctx
  | p0 :: _ =>
      let ctx := beginPath ctx in
      let ctx := set_lineWidth (size path) ctx in
      let ctx := set_strokeStyle "#FFFFFF" ctx in
      let ctx := moveTo p0 ctx in
      let ctx := fold_left (fun c p => lineTo p c) (points path) ctx in
      stroke ctx
  end.

Definition generateMask (s : Editor) : option DataURL :=
  match imageRef s with
  | None => None
  | Some img =>
      let maskCanvas := createCanvas (width img) (height img) in
      let ctx := getContext maskCanvas in
      let ctx := set_fillStyle "#000000" ctx in
      let ctx :=
        fillRect 0 0 (canvas_width maskCanvas) (canvas_height maskCanvas) ctx in
      let ctx := set_lineCap "round" ctx in
      let ctx := set_lineJoin "round" ctx in
      let ctx := fold_left strokeMaskPath (paths s) ctx in
      Some (toDataURL (canvas ctx))
  end.

(** The draw loop, lines 61-105: what the visible canvas shows after the
    effect has run, or nothing new when no image is loaded.  The canvas
    element is rendered with the component, so [canvasRef.current] is set
    when an effect runs, and its ['2d'] context exists. *)
Definition overlayStyle : string := "rgba(255, 0, 0, 0.5)".

Definition strokeOverlayPath (ctx : Context2D) (path : DrawPath) : Context2D :=
  match points path with
  | [] => ctx
  | p0 :: _ =>
      let ctx := beginPath ctx in
      let ctx := set_lineWidth (size path) ctx in
      let ctx := set_strokeStyle overlayStyle ctx in
      let ctx := moveTo p0 ctx in
      let ctx := fold_left (fun c p => lineTo p c) (points path) ctx in
      stroke ctx
  end.

Definition strokeCurrentPath (s : Editor) (ctx : Context2D) : Context2D :=
  match currentPath s with
  | [] => ctx
  | p0 :: _ =>
      let ctx := beginPath ctx in
      let ctx := set_lineWidth (brushSize s) ctx in
      let ctx := set_strokeStyle overlayStyle ctx in
      let ctx := moveTo p0 ctx in
      let ctx := fold_left (fun c p => lineTo p c) (currentPath s) ctx in
      stroke ctx
  end.

Definition drawLoop (s : Editor) : option Surface :=
  match imageRef s with
  | None => None
  | Some img =>
      let sc := resize (width img) (height img) in
      let sc :=
        clearRect 0 0 (canvas_width (canvas (pen sc)))
          (canvas_height (canvas (pen sc))) sc in
      let sc := drawImage img 0 0 sc in
      let sc := save sc in
      let sc := withPen (set_lineCap "round") sc in
      let sc := withPen (set_lineJoin "round") sc in
      let sc := withPen (fun ctx => fold_left strokeOverlayPath (paths s) ctx) sc in
      let sc := withPen (strokeCurrentPath s) sc in
      let sc := restore sc in
      Some (surfaceOf sc)
  end.

(** What the generate button does, lines 313-315: nothing while it is
    disabled, otherwise [generateMask], whose result goes to [onGenerate]. *)
Definition clickGenerate (s : Editor) : option DataURL :=
  if actionsDisabled s then None else generateMask s.

(** *** Vocabulary of the statements *)

(** The line a stroke is painted as: nothing for a stroke without points,
    otherwise one path that starts at the first point and visits every
    point in order, with round caps and joins and the stroke's own width. *)
Definition strokeLine (style : string) (path : DrawPath) : list Paint :=
  match points path with
  | [] => []
  | p0 :: _ =>
      [StrokePath style (size path) "round" "round"
         (MoveTo p0 :: map LineTo (points path))]
  end.

(** The image position of a pointer event, for a given container. *)
Definition imagePoint (s : Editor) (c : Container) (e : InputEvent) : Point :=
  mkPoint ((clientX e - rect_left c - x (offset s)) / scale s)
          ((clientY e - rect_top c - y (offset s)) / scale s).

(** No stroke of the history is without points. *)
Definition strokesNonEmpty (l : list DrawPath) : bool :=
  forallb (fun p => match points p with [] => false | _ :: _ => true end) l.

(** *** The component as a transition system *)

Inductive Action : Type :=
| PointerDown (e : InputEvent)      (* onMouseDown, onTouchStart *)
| PointerMove (e : InputEvent)      (* onMouseMove, onTouchMove *)
| PointerUp                         (* onMouseUp, onMouseLeave, onTouchEnd *)
| Wheel (deltaY : Q)                (* onWheel *)
| ClickMode (m : EditorMode)        (* the two tool buttons *)
| SlideBrush (v : Q)                (* the range input *)
| ClickUndo
| ClickReset
| ImageLoaded (img : ImageDimensions)
| ContainerAttached (c : option Container)
| Processing (busy : bool).         (* the parent re-renders with the prop *)

Definition step (s : Editor) (a : Action) : Editor :=
  match a with
  | PointerDown e => handleMouseDown e s
  | PointerMove e => handleMouseMove e s
  | PointerUp => handleMouseUp s
  | Wheel deltaY => handleWheel deltaY s
  | ClickMode m => setMode m s
  | SlideBrush v => setBrushSize v s
  | ClickUndo => if actionsDisabled s then s else undo s
  | ClickReset => if actionsDisabled s then s else reset s
  | ImageLoaded img => imageOnLoad img s
  | ContainerAttached c => withContainerRef c s
  | Processing busy => withProcessing busy s
  end.

Definition run (s : Editor) (l : list Action) : Editor := fold_left step l s.

(** The pointer-move events of one gesture. *)
Definition moves (es : list InputEvent) : list Action := map PointerMove es.

(** What may happen between the pointer-down and the pointer-up of a draw
    gesture whose mode is not switched: every action but a second
    pointer-down, a pointer-up, and a click on the pan tool. *)
Definition duringDraw (a : Action) : bool :=
  match a with
  | PointerDown _ | PointerUp | ClickMode PAN => false
  | _ => true
  end.

(** The recorder is recording exactly when a stroke is in progress. *)
Definition recorderConsistent (s : Editor) : bool :=
  Bool.eqb (isDrawing s)
    (match currentPath s with [] => false | _ :: _ => true end).

(** While a draw gesture is under way and the mode is not switched, the
    editor stays in draw mode, recording, with a non-empty stroke. *)
Definition recording (s : Editor) : Prop :=
  mode s = DRAW /\ isDrawing s = true /\ currentPath s <> [].


End ImageEditor.

(** ** [src/App.tsx] *)

Module App.

Record State : Type := mkState {
  originalImage : option DataURL;
  processedImage : option DataURL;
  isProcessing : bool;
  loadingText : string
}.

(** The application on screen: the state of [App], the [ImageEditor]
    instance when one is mounted, and what the user was shown through
    [alert] and the console. *)
Record World : Type := mkWorld {
  state : State;
  editor : option ImageEditor.Editor;
  alerts : list string;
  consoleErrors : list (string * string)
}.

Definition setProcessedImage (v : option DataURL) (w : World) : World :=
  mkWorld
    (mkState (originalImage (state w)) v (isProcessing (state w))
       (loadingText (state w)))
    (editor w) (alerts w) (consoleErrors w).

Definition setIsProcessing (v : bool) (w : World) : World :=
  mkWorld
    (mkState (originalImage (state w)) (processedImage (state w)) v
       (loadingText (state w)))
    (editor w) (alerts w) (consoleErrors w).

Definition setLoadingText (v : string) (w : World) : World :=
  mkWorld
    (mkState (originalImage (state w)) (processedImage (state w))
       (isProcessing (state w)) v)
    (editor w) (alerts w) (consoleErrors w).

Definition alert (msg : string) (w : World) : World :=
  mkWorld (state w) (editor w) (alerts w ++ [msg]) (consoleErrors w).

Definition console_error (msg err : string) (w : World) : World :=
  mkWorld (state w) (editor w) (alerts w) (consoleErrors w ++ [(msg, err)]).

(** Rendering, lines 101-108: the editor is on screen exactly when there is
    an original image and no processed one; a mounted instance keeps its
    state and receives the current [isProcessing], an instance that leaves
    the screen is dropped. *)
Definition render (w : World) : World :=
  match originalImage (state w), processedImage (state w) with
  | Some _, None =>
      let inst :=
        match editor w with
        | Some ed => ImageEditor.withProcessing (isProcessing (state w)) ed
        | None => ImageEditor.initialEditor (isProcessing (state w))
        end in
      mkWorld (state w) (Some inst) (alerts w) (consoleErrors w)
  | _, _ => mkWorld (state w) None (alerts w) (consoleErrors w)
  end.

(** What [removeWatermark] (services/geminiService, an external call)
    settles to. *)
Inductive Outcome : Type :=
| Resolved (result : DataURL)
| Rejected (error : string).

(** A handler either returns, or is suspended at
    [await removeWatermark(image, mask)]: [suspended] is the world it
    leaves behind and [resume] runs the rest of the handler on the world
    found when the promise settles. *)
Inductive Async : Type :=
| Return (w : World)
| Await (suspended : World) (image mask : DataURL)
    (resume : Outcome -> World -> World).

(** [handleGenerate], lines 27-42. *)
Definition handleGenerate (maskBase64 : DataURL) (w : World) : Async :=
  match originalImage (state w) with
  | None => Return w
  | Some image =>
      let w1 :=
        render
          (setLoadingText "小刘正在卖力擦除中..." (setIsProcessing true w)) in
      Await w1 image maskBase64
        (fun settled wk =>
           let wk1 :=
             match settled with
             | Resolved result => setProcessedImage (Some result) wk
             | Rejected error =>
                 alert "处理失败，请稍后重试或检查网络设置。"
                   (console_error "Failed to process image:" error wk)
             end in
           render (setIsProcessing false wk1))
  end.

(** Running the handler to completion when nothing else happens while the
    request is in flight. *)
Definition settle (a : Async) (o : Outcome) : World :=
  match a with
  | Return w => w
  | Await w1 _ _ resume => resume o w1
  end.

(** [handleFileUpload], lines 13-25, from the moment the reader has
    loaded: [result] is the data URL read, if a file was chosen and read. *)
Definition setOriginalImage (v : option DataURL) (w : World) : World :=
  mkWorld
    (mkState v (processedImage (state w)) (isProcessing (state w))
       (loadingText (state w)))
    (editor w) (alerts w) (consoleErrors w).

Definition handleFileUpload (result : option DataURL) (w : World) : World :=
  match result with
  | Some url => render (setProcessedImage None (setOriginalImage (Some url) w))
  | None => w
  end.

(** [handleApply], lines 44-49, and [handleCancel], lines 62-64. *)
Definition handleApply (w : World) : World :=
  match processedImage (state w) with
  | Some processed =>
      render (setProcessedImage None (setOriginalImage (Some processed) w))
  | None => w
  end.

Definition handleCancel (w : World) : World :=
  render (setProcessedImage None w).

(** The three alternatives of the main area, lines 87, 102 and 111. *)
Inductive View : Type := NoImage | Editing | Comparison.

Definition views (st : State) : list View :=
  (match originalImage st with None => [NoImage] | Some _ => [] end) ++
  (match originalImage st, processedImage st with
   | Some _, None => [Editing]
   | _, _ => []
   end) ++
  (match originalImage st, processedImage st with
   | Some _, Some _ => [Comparison]
   | _, _ => []
   end).

(** A click on the editor's generate button: the mask, when the button
    gives one, is passed to [handleGenerate] through [onGenerate]. *)
Definition generateClicked (w : World) : Async :=
  match editor w with
  | None => Return w
  | Some ed =>
      match ImageEditor.clickGenerate ed with
      | Some mask => handleGenerate mask w
      | None => Return w
      end
  end.

(** An editor event reaching the mounted instance. *)
Definition editorAction (a : ImageEditor.Action) (w : World) : World :=
  match editor w with
  | None => w
  | Some ed =>
      mkWorld (state w) (Some (ImageEditor.step ed a)) (alerts w)
        (consoleErrors w)
  end.

End App.

(** ** [src/unnamed/part_000]: the before/after comparison view *)

Module CompareView.

(** What [getBoundingClientRect()] answers for the compared area. *)
Record DOMRect : Type := mkRect { left : Q; width : Q }.

Record State : Type := mkState {
  containerRef : option DOMRect;
  sliderPosition : Q;
  isResizing : bool
}.

Definition initialState (container : option DOMRect) : State :=
  mkState container 50 false.

Definition setSliderPosition (v : Q) (s : State) : State :=
  mkState (containerRef s) v (isResizing s).

Definition setIsResizing (v : bool) (s : State) : State :=
  mkState (containerRef s) (sliderPosition s) v.

(** Lines 17-18. *)
Definition handleMouseDown (s : State) : State := setIsResizing true s.
Definition handleTouchStart (s : State) : State := setIsResizing true s.

(** [handleMove], lines 20-26. *)
Definition handleMove (clientX : Q) (s : State) : State :=
  match containerRef s with
  | None => s
  | Some rect =>
      let x := Math_max 0 [Math_min (clientX - left rect) [width rect]] in
      let percent := (x / width rect) * 100 in
      setSliderPosition percent s
  end.

(** [handleMouseMove] and [handleTouchMove], lines 28-36; the argument is
    [e.clientX], respectively [e.touches[0].clientX]. *)
Definition handleMouseMove (clientX : Q) (s : State) : State :=
  if negb (isResizing s) then s else handleMove clientX s.

Definition handleTouchMove (touch0X : Q) (s : State) : State :=
  if negb (isResizing s) then s else handleMove touch0X s.

(** [handleStop], line 38, bound to the document's mouseup and touchend. *)
Definition handleStop (s : State) : State := setIsResizing false s.

(** The share of the width the original image is clipped by, line 73:
    [inset(0 ${100 - sliderPosition}% 0 0)]. *)
Definition clipInset (s : State) : Q := 100 - sliderPosition s.

Inductive Action : Type :=
| HandleDown
| HandleTouched
| MouseMoved (clientX : Q)
| TouchMoved (touch0X : Q)
| Released.

Definition step (s : State) (a : Action) : State :=
  match a with
  | HandleDown => handleMouseDown s
  | HandleTouched => handleTouchStart s
  | MouseMoved cx => handleMouseMove cx s
  | TouchMoved cx => handleTouchMove cx s
  | Released => handleStop s
  end.

Definition run (s : State) (l : list Action) : State := fold_left step l s.

Definition sliderInRange (s : State) : Prop := 0 <= sliderPosition s <= 100.

Definition isMove (a : Action) : bool :=
  match a with
  | MouseMoved _ | TouchMoved _ => true
  | _ => false
  end.

End CompareView.

(** ** Concrete editors used by the scenarios *)

Module Scenario.
Import ImageEditor.

Definition container1000x800 : Container := mkContainer 0 0 1000 800.
Definition photo800x600 : ImageDimensions := mkImage 800 600.

(** An editor whose container is attached and whose image is not loaded. *)
Definition mounted : Editor :=
  run (initialEditor false) [ContainerAttached (Some container1000x800)].

(** The editor after the 800x600 photo has loaded. *)
Definition ready : Editor := run mounted [ImageLoaded photo800x600].


(** A draw gesture under way on the photo: the pointer went down on the
    image pixel (100, 100). *)
Definition midStroke : Editor := run ready [PointerDown (MouseEvent 230 220)].

Definition photo400x400 : ImageDimensions := mkImage 400 400.

(** One gesture, with and without a click on the other tool in between. *)
Definition drawGesture : list Action :=
  [PointerDown (MouseEvent 230 220); PointerMove (MouseEvent 320 310);
   PointerUp].
Definition drawGestureSwitched : list Action :=
  [PointerDown (MouseEvent 230 220); ClickMode PAN;
   PointerMove (MouseEvent 320 310); PointerUp].
Definition panGesture : list Action :=
  [ClickMode PAN; PointerDown (MouseEvent 10 10);
   PointerMove (MouseEvent 50 60); PointerUp].
Definition panGestureSwitched : list Action :=
  [ClickMode PAN; PointerDown (MouseEvent 10 10); ClickMode DRAW;
   PointerMove (MouseEvent 50 60); PointerUp].

(** One stroke is committed, a second gesture is under way, and a
    generation request is now in flight. *)
Definition busyMidStroke : Editor :=
  run ready (drawGesture ++ [PointerDown (MouseEvent 400 400); Processing true]).

Definition busyMidPan : Editor :=
  run ready
    (drawGesture ++
     [ClickMode PAN; PointerDown (MouseEvent 10 10); Processing true]).

(** The application showing the editor with one committed stroke, zoomed
    and panned by the user. *)
Definition stroked : Editor :=
  run ready (drawGesture ++ [Wheel (-300)] ++ panGesture).

Definition editing : App.World :=
  App.mkWorld
    (App.mkState (Some (FileData "photo")) None false "处理中...")
    (Some stroked) [] [].

(** The compared area, 600 wide, 200 from the left edge of the window. *)
Definition compared : CompareView.State :=
  CompareView.initialState (Some (CompareView.mkRect 200 600)).

End Scenario.

(** * Properties *)

Import ImageEditor.

(** ** Viewport transform *)

Lemma Point_eq_refl (p : Point) : Point_eq p p.
Proof. split; reflexivity. Qed.

(** The arithmetic core of the round trip, in one coordinate. *)
Lemma unscale_rescale (v o k : Q) : ~ k == 0 -> (v - o) / k * k + o == v.
Proof. intros Hk. field. exact Hk. Qed.

Lemma rescale_unscale (v o k : Q) : ~ k == 0 -> (v * k + o - o) / k == v.
Proof. intros Hk. field. exact Hk. Qed.

Lemma getRelativeCoords_some (s : Editor) (c : Container)
    (img : ImageDimensions) (e : InputEvent) :
  containerRef s = Some c -> imageRef s = Some img ->
  getRelativeCoords s e =
    Some (mkPoint ((x (containerPoint c e) - x (offset s)) / scale s)
                  ((y (containerPoint c e) - y (offset s)) / scale s)).
Proof.
  intros Hc Hi. unfold getRelativeCoords. rewrite Hc, Hi. reflexivity.
Qed.

(** Every container position is the position of some pointer event. *)
Lemma containerPoint_onto (c : Container) (p : Point) :
  Point_eq
    (containerPoint c (MouseEvent (x p + rect_left c) (y p + rect_top c))) p.
Proof. split; simpl; ring. Qed.

(** C1. With a positive scale, the image point that [getRelativeCoords]
    computes for a pointer event is sent back by the canvas placement
    transform to the container position of that event; and if the event
    points at the placement of an image point, that image point is what
    [getRelativeCoords] returns.  The conversion is the two-sided inverse
    of the viewport transform. *)
Theorem getRelativeCoords_roundtrip (s : Editor) (c : Container)
    (img : ImageDimensions) (e : InputEvent) (p : Point) :
  containerRef s = Some c -> imageRef s = Some img -> 0 < scale s ->
  Point_eq (containerPoint c e) p ->
  exists q,
    getRelativeCoords s e = Some q /\
    Point_eq (toContainerSpace s q) p /\
    (forall r, Point_eq (toContainerSpace s r) p -> Point_eq q r).
Proof.
  intros Hc Hi Hpos [Hpx Hpy].
  assert (Hk : ~ scale s == 0) by (intro H0; rewrite H0 in Hpos; lra).
  eexists. split; [apply (getRelativeCoords_some s c img e Hc Hi)|].
  split.
  - split; simpl; rewrite unscale_rescale by exact Hk; assumption.
  - intros r [Hrx Hry]. simpl in Hrx, Hry. split; simpl.
    + change (clientX e - rect_left c) with (x (containerPoint c e)).
      rewrite Hpx, <- Hrx. apply rescale_unscale, Hk.
    + change (clientY e - rect_top c) with (y (containerPoint c e)).
      rewrite Hpy, <- Hry. apply rescale_unscale, Hk.
Qed.

(** The round trip on the loaded photo, for a click at (230, 220). *)
Lemma getRelativeCoords_roundtrip_witness :
  exists q,
    getRelativeCoords Scenario.ready (MouseEvent 230 220) = Some q /\
    Point_eq (toContainerSpace Scenario.ready q) (mkPoint 230 220) /\
    (forall r, Point_eq (toContainerSpace Scenario.ready r) (mkPoint 230 220) ->
               Point_eq q r).
Proof.
  apply (getRelativeCoords_roundtrip Scenario.ready
           Scenario.container1000x800 Scenario.photo800x600).
  - reflexivity.
  - reflexivity.
  - vm_compute. reflexivity.
  - split; vm_compute; reflexivity.
Defined.

(** *** Fitting a loaded image *)

Lemma Math_min3 (a b c : Q) : Math_min a [b; c] = Qmin (Qmin a b) c.
Proof. reflexivity. Qed.

Lemma fitImageToContainer_scale (s : Editor) (c : Container) (iw ih : Q) :
  containerRef s = Some c ->
  scale (fitImageToContainer iw ih s) =
    Qmin (Qmin (clientWidth c / iw) (clientHeight c / ih)) 1 * 0.9.
Proof. intros Hc. unfold fitImageToContainer. rewrite Hc. reflexivity. Qed.

Lemma fitImageToContainer_offset (s : Editor) (c : Container) (iw ih : Q) :
  containerRef s = Some c ->
  offset (fitImageToContainer iw ih s) =
    mkPoint
      ((clientWidth c - iw * scale (fitImageToContainer iw ih s)) / 2)
      ((clientHeight c - ih * scale (fitImageToContainer iw ih s)) / 2).
Proof. intros Hc. unfold fitImageToContainer. rewrite Hc. reflexivity. Qed.



(** C2. Loading an 800x600 image into a 1000x800 container gives scale 0.9
    and offset (140, 130).  In general, with a container present and a
    positive image size, the new scale is
    [min(containerW/imgW, containerH/imgH, 1) * 0.9], the new offset is
    [((containerW - imgW*scale)/2, (containerH - imgH*scale)/2)], and the
    scaled image is centred in the container. *)
Theorem fitImageToContainer_spec :
  (let s' := fitImageToContainer 800 600 Scenario.mounted in
   scale s' == 0.9 /\ Point_eq (offset s') (mkPoint 140 130)) /\
  (forall (s : Editor) (c : Container) (iw ih : Q),
      containerRef s = Some c -> 0 < iw -> 0 < ih ->
      let s' := fitImageToContainer iw ih s in
      let k := Qmin (Qmin (clientWidth c / iw) (clientHeight c / ih)) 1 * 0.9 in
      scale s' == k /\
      Point_eq (offset s')
        (mkPoint ((clientWidth c - iw * k) / 2) ((clientHeight c - ih * k) / 2)) /\
      Point_eq
        (toContainerSpace s' (mkPoint (iw / 2) (ih / 2)))
        (mkPoint (clientWidth c / 2) (clientHeight c / 2))).
Proof.
  split.
  - cbv zeta. split; [|split]; vm_compute; reflexivity.
  - intros s c iw ih Hc Hiw Hih s' k.
    assert (Hs : scale s' = k) by (apply fitImageToContainer_scale, Hc).
    assert (Ho : offset s' =
                 mkPoint ((clientWidth c - iw * k) / 2)
                         ((clientHeight c - ih * k) / 2)).
    { unfold s'. rewrite (fitImageToContainer_offset s c iw ih Hc).
      fold s'. rewrite Hs. reflexivity. }
    split; [rewrite Hs; reflexivity|].
    split; [rewrite Ho; apply Point_eq_refl|].
    unfold toContainerSpace. rewrite Ho, Hs. split; simpl; field.
Qed.

(** The general formula at the 800x600 photo in the 1000x800 container. *)
Lemma fitImageToContainer_spec_witness :
  let s' := fitImageToContainer 800 600 Scenario.mounted in
  let k := Qmin (Qmin (1000 / 800) (800 / 600)) 1 * 0.9 in
  scale s' == k /\
  Point_eq (offset s') (mkPoint ((1000 - 800 * k) / 2) ((800 - 600 * k) / 2)) /\
  Point_eq (toContainerSpace s' (mkPoint (800 / 2) (600 / 2)))
    (mkPoint (1000 / 2) (800 / 2)).
Proof.
  apply (proj2 fitImageToContainer_spec Scenario.mounted
           Scenario.container1000x800 800 600).
  - reflexivity.
  - vm_compute. reflexivity.
  - vm_compute. reflexivity.
Defined.

(** *** The range of the scale *)









(** ** Stroke recorder *)

Ltac unfold_handlers :=
  unfold handleMouseDown, handleMouseMove, handleMouseUp, handleWheel,
    imageOnLoad, fitImageToContainer, undo, reset.

(** Splits on every test a handler makes, and uses the outcome of each
    test wherever the tested field shows up again. *)
Ltac handler_cases s e :=
  unfold_handlers;
  destruct (isProcessing s) eqn:?, (mode s) eqn:?, (isDragging s) eqn:?,
           (isDrawing s) eqn:?, (currentPath s) eqn:?;
  try destruct (getRelativeCoords s e) eqn:?;
  simpl;
  repeat match goal with
         | H : _ s = _ |- _ => rewrite H
         end.

Lemma recorderConsistent_iff (s : Editor) :
  recorderConsistent s = true <-> (isDrawing s = true <-> currentPath s <> []).
Proof.
  unfold recorderConsistent.
  destruct (isDrawing s), (currentPath s); simpl; split; intros H;
    try reflexivity; try discriminate.
  - exfalso. apply (proj1 H eq_refl). reflexivity.
  - split; [intros _; discriminate | reflexivity].
  - split; [discriminate | intros H'; exfalso; apply H'; reflexivity].
  - apply H. discriminate.
Qed.

(** Every action keeps the recorder consistent, so it is consistent in
    every state reached from the initial one. *)
Lemma step_recorderConsistent (s : Editor) (a : Action) :
  recorderConsistent s = true -> recorderConsistent (step s a) = true.
Proof.
  unfold recorderConsistent.
  destruct a as [e|e| |dy|m|v| | |img|c|b]; simpl; try (intros H; exact H).
  - handler_cases s e; intros H; try reflexivity; try discriminate.
  - handler_cases s e; intros H; try reflexivity; try discriminate;
      destruct l; reflexivity.
  - handler_cases s (MouseEvent 0 0); intros H;
      try reflexivity; try discriminate.
  - destruct (actionsDisabled s); intros H; exact H.
  - destruct (actionsDisabled s); intros H; exact H.
  - unfold_handlers; simpl. destruct (containerRef s); intros H; exact H.
Qed.

Lemma run_recorderConsistent (l : list Action) (s : Editor) :
  recorderConsistent s = true -> recorderConsistent (run s l) = true.
Proof.
  revert s. induction l as [|a l IH]; intros s H; [exact H|].
  apply IH, step_recorderConsistent, H.
Qed.

(** X6. In every state reached from the mounted editor, by whatever
    sequence of actions, the recording flag is set exactly when the stroke
    in progress is non-empty. *)
Lemma reachable_recorderConsistent (busy : bool) (l : list Action) :
  recorderConsistent (run (initialEditor busy) l) = true.
Proof. apply run_recorderConsistent. reflexivity. Qed.

(** A pointer-move touches neither the history, the mode nor the brush. *)
Lemma handleMouseMove_frame (e : InputEvent) (s : Editor) :
  paths (handleMouseMove e s) = paths s /\
  mode (handleMouseMove e s) = mode s /\
  brushSize (handleMouseMove e s) = brushSize s /\
  isDrawing (handleMouseMove e s) = isDrawing s.
Proof. handler_cases s e; repeat split. Qed.

Lemma moves_frame (es : list InputEvent) (s : Editor) :
  paths (run s (moves es)) = paths s /\
  mode (run s (moves es)) = mode s /\
  brushSize (run s (moves es)) = brushSize s /\
  isDrawing (run s (moves es)) = isDrawing s.
Proof.
  revert s. induction es as [|e es IH]; intros s; [repeat split|].
  simpl. destruct (IH (handleMouseMove e s)) as (Hp & Hm & Hb & Hd).
  destruct (handleMouseMove_frame e s) as (Hp' & Hm' & Hb' & Hd').
  unfold moves, run in *.
  rewrite Hp, Hm, Hb, Hd. auto.
Qed.

Lemma handleMouseDown_frame (e : InputEvent) (s : Editor) :
  paths (handleMouseDown e s) = paths s /\
  mode (handleMouseDown e s) = mode s /\
  brushSize (handleMouseDown e s) = brushSize s.
Proof. handler_cases s e; repeat split. Qed.

(** Releasing in draw mode: a non-empty stroke in progress is appended to
    the history with the current brush size; otherwise nothing changes. *)
Lemma handleMouseUp_draw (s : Editor) :
  mode s = DRAW -> recorderConsistent s = true ->
  match currentPath s with
  | [] => handleMouseUp s = s
  | _ :: _ =>
      paths (handleMouseUp s) =
        paths s ++ [mkDrawPath (currentPath s) (brushSize s)] /\
      currentPath (handleMouseUp s) = [] /\
      isDrawing (handleMouseUp s) = false
  end.
Proof.
  intros Hm Hc. unfold recorderConsistent in Hc. unfold handleMouseUp.
  rewrite Hm. simpl.
  destruct (isDrawing s), (currentPath s); simpl in *;
    try discriminate; try reflexivity.
  repeat split.
Qed.

(** C4. For a gesture in draw mode (pointer-down, any number of
    pointer-moves, pointer-up) started in a consistent recorder state: if
    the stroke in progress at release is non-empty, the history after
    release is the history before the gesture followed by exactly that one
    stroke, so its length grows by one; if it is empty, the release leaves
    the whole editor, and so the history, as it was. *)
Theorem gesture_history (s : Editor) (e : InputEvent) (es : list InputEvent) :
  recorderConsistent s = true -> mode s = DRAW ->
  let atRelease := run s (PointerDown e :: moves es) in
  let after := step atRelease PointerUp in
  (currentPath atRelease <> [] ->
     paths after =
       paths s ++ [mkDrawPath (currentPath atRelease) (brushSize atRelease)] /\
     length (paths after) = S (length (paths s))) /\
  (currentPath atRelease = [] ->
     after = atRelease /\ paths after = paths s /\
     length (paths after) = length (paths s)).
Proof.
  intros Hc Hm atRelease after.
  assert (Hc' : recorderConsistent atRelease = true)
    by (apply run_recorderConsistent, Hc).
  destruct (handleMouseDown_frame e s) as (Hp1 & Hm1 & _).
  destruct (moves_frame es (handleMouseDown e s)) as (Hp2 & Hm2 & _).
  change (run s (PointerDown e :: moves es))
    with (run (handleMouseDown e s) (moves es)) in atRelease.
  assert (Hpaths : paths atRelease = paths s)
    by (unfold atRelease; rewrite Hp2; exact Hp1).
  assert (Hmode : mode atRelease = DRAW)
    by (unfold atRelease; rewrite Hm2, Hm1; exact Hm).
  pose proof (handleMouseUp_draw atRelease Hmode Hc') as Hup.
  unfold after; simpl. split.
  - intros Hne. destruct (currentPath atRelease) eqn:Hcp; [congruence|].
    destruct Hup as (Hp & _). rewrite Hp, Hpaths. split; [reflexivity|].
    rewrite length_app. simpl. lia.
  - intros Hnil. rewrite Hnil in Hup. rewrite Hup.
    repeat split; rewrite Hpaths; reflexivity.
Qed.

(** A stroke on the loaded photo adds one entry; the same gesture before
    any image is loaded records nothing and adds none. *)
Lemma gesture_history_witness :
  length
    (paths
       (run Scenario.ready
          [PointerDown (MouseEvent 230 220); PointerMove (MouseEvent 320 310);
           PointerUp])) = 1%nat /\
  paths
    (run Scenario.mounted
       [PointerDown (MouseEvent 230 220); PointerMove (MouseEvent 320 310);
        PointerUp]) = [].
Proof.
  split.
  - apply (proj1 (gesture_history Scenario.ready (MouseEvent 230 220)
                    [MouseEvent 320 310] eq_refl eq_refl)).
    vm_compute. discriminate.
  - apply (proj2 (gesture_history Scenario.mounted (MouseEvent 230 220)
                    [MouseEvent 320 310] eq_refl eq_refl)).
    vm_compute. reflexivity.
Defined.

Lemma app_not_nil {A : Type} (l : list A) (a : A) : l ++ [a] <> [].
Proof. destruct l; discriminate. Qed.

Lemma step_recording (s : Editor) (a : Action) :
  duringDraw a = true -> recording s -> recording (step s a).
Proof.
  unfold recording.
  destruct a as [e|e| |dy|m|v| | |img|c|b]; simpl; intros Ha (Hm & Hd & Hp);
    try discriminate; try (repeat split; assumption).
  - unfold handleMouseMove. rewrite Hm, Hd. simpl.
    destruct (isProcessing s); [repeat split; assumption|].
    destruct (getRelativeCoords s e); simpl; repeat split; try assumption.
    apply app_not_nil.
  - destruct m; [repeat split; assumption | discriminate].
  - destruct (actionsDisabled s); repeat split; assumption.
  - destruct (actionsDisabled s); repeat split; assumption.
  - unfold imageOnLoad, fitImageToContainer; simpl.
    destruct (containerRef s); repeat split; assumption.
Qed.

Lemma run_recording (l : list Action) (s : Editor) :
  forallb duringDraw l = true -> recording s -> recording (run s l).
Proof.
  revert s. induction l as [|a l IH]; intros s Hl Hs; [exact Hs|].
  simpl in Hl. apply andb_true_iff in Hl. destruct Hl as [Ha Hl].
  apply IH; [exact Hl | apply step_recording; assumption].
Qed.

Lemma forallb_firstn {A : Type} (f : A -> bool) (n : nat) (l : list A) :
  forallb f l = true -> forallb f (firstn n l) = true.
Proof.
  revert n. induction l as [|a l IH]; intros [|n] H; simpl in *; trivial.
  apply andb_true_iff in H. destruct H as [Ha Hl].
  rewrite Ha. simpl. apply IH, Hl.
Qed.

Lemma handleMouseUp_recording (s : Editor) :
  recording s ->
  paths (handleMouseUp s) =
    paths s ++ [mkDrawPath (currentPath s) (brushSize s)] /\
  currentPath (handleMouseUp s) = [] /\
  isDrawing (handleMouseUp s) = false.
Proof.
  intros (Hm & Hd & Hp). unfold handleMouseUp. rewrite Hm, Hd. simpl.
  destruct (currentPath s); [congruence | repeat split].
Qed.

(** C10, as the code has it.  A pointer-down in draw mode, not busy, with
    container and image present, obtains a coordinate and seeds the stroke
    in progress with exactly that one point.  Whatever happens afterwards,
    the stroke in progress is non-empty whenever the recorder is
    recording, so a release never takes the discard branch.  Through
    everything that can follow before the release without a click on the
    pan tool (moves, wheel steps, brush changes, undo, reset, an image
    load, the busy flag changing; a further pointer-down or pointer-up
    would begin or end a gesture) the recorder stays recording in draw
    mode with a non-empty stroke, and the release appends exactly one
    stroke to the history and returns the recorder to idle. *)
Theorem draw_gesture_commits (s : Editor) (c : Container)
    (img : ImageDimensions) (e : InputEvent) (l : list Action) :
  isProcessing s = false -> mode s = DRAW ->
  containerRef s = Some c -> imageRef s = Some img ->
  forallb duringDraw l = true ->
  let begun := step s (PointerDown e) in
  let atRelease := run begun l in
  let after := step atRelease PointerUp in
  (exists coords,
      getRelativeCoords s e = Some coords /\ currentPath begun = [coords]) /\
  isDrawing begun = true /\
  (forall n, currentPath (run begun (firstn n l)) <> []) /\
  paths after =
    paths atRelease ++ [mkDrawPath (currentPath atRelease) (brushSize atRelease)] /\
  length (paths after) = S (length (paths atRelease)) /\
  currentPath after = [] /\ isDrawing after = false /\
  (forall anything,
      isDrawing (run begun anything) = true ->
      currentPath (run begun anything) <> []).
Proof.
  intros Hb Hm Hc Hi Hl begun atRelease after.
  pose proof (getRelativeCoords_some s c img e Hc Hi) as Hcoords.
  assert (Hbegun : begun =
            setCurrentPath (fun _ => [mkPoint
              ((x (containerPoint c e) - x (offset s)) / scale s)
              ((y (containerPoint c e) - y (offset s)) / scale s)])
              (setIsDrawing true s)).
  { unfold begun; simpl. unfold handleMouseDown.
    rewrite Hb, Hm, Hcoords. reflexivity. }
  assert (Hrec : recording begun).
  { rewrite Hbegun. repeat split; simpl; [exact Hm | discriminate]. }
  split; [eexists; split; [exact Hcoords | rewrite Hbegun; reflexivity]|].
  split; [apply Hrec|].
  split.
  { intros n. apply (run_recording (firstn n l) begun);
      [apply forallb_firstn, Hl | exact Hrec]. }
  destruct (handleMouseUp_recording atRelease (run_recording l begun Hl Hrec))
    as (Hp & Hcp & Hd).
  unfold after; simpl. rewrite Hp, length_app. simpl.
  split; [reflexivity|]. split; [lia|].
  split; [exact Hcp|]. split; [exact Hd|].
  intros anything Hdrawing.
  assert (Hcons : recorderConsistent begun = true)
    by (rewrite Hbegun; reflexivity).
  apply (run_recorderConsistent anything) in Hcons.
  unfold recorderConsistent in Hcons. rewrite Hdrawing in Hcons.
  destruct (currentPath (run begun anything)); [discriminate Hcons | discriminate].
Qed.

(** A gesture interleaved with a wheel step, a brush change and the busy
    flag being set still commits one stroke. *)
Lemma draw_gesture_commits_witness :
  length
    (paths
       (run Scenario.ready
          [PointerDown (MouseEvent 230 220); PointerMove (MouseEvent 320 310);
           Wheel 100; SlideBrush 40; Processing true;
           PointerMove (MouseEvent 400 400); PointerUp])) = 1%nat.
Proof.
  apply (draw_gesture_commits Scenario.ready Scenario.container1000x800
           Scenario.photo800x600 (MouseEvent 230 220)
           [PointerMove (MouseEvent 320 310); Wheel 100; SlideBrush 40;
            Processing true; PointerMove (MouseEvent 400 400)]
           eq_refl eq_refl eq_refl eq_refl eq_refl).
Defined.

(** C10 as the specification states it fails.  On the loaded photo a
    pointer-down in draw mode, not busy, begins a gesture: a coordinate is
    obtained and the stroke in progress holds that one point.  A click on
    the pan tool follows; the release then commits no stroke, and the
    recorder is still recording with its point. *)
Lemma draw_gesture_pan_click_counterexample :
  let begun := step Scenario.ready (PointerDown (MouseEvent 230 220)) in
  let after := run begun [ClickMode PAN; PointerUp] in
  (isProcessing Scenario.ready = false /\ mode Scenario.ready = DRAW /\
   containerRef Scenario.ready = Some Scenario.container1000x800 /\
   imageRef Scenario.ready = Some Scenario.photo800x600) /\
  (exists coords,
      getRelativeCoords Scenario.ready (MouseEvent 230 220) = Some coords /\
      currentPath begun = [coords]) /\
  isDrawing begun = true /\
  paths after = paths begun /\
  length (paths after) <> S (length (paths begun)) /\
  length (currentPath after) = 1%nat /\
  isDrawing after = true.
Proof.
  cbv zeta. split; [repeat split|].
  split; [eexists; split; reflexivity|].
  split; [reflexivity|]. split; [reflexivity|].
  split; [vm_compute; discriminate|].
  split; reflexivity.
Qed.

(** ** The busy flag *)

(** Pointer-down and pointer-move are ignored while a request is in
    flight. *)
Lemma handleMouseDown_busy (e : InputEvent) (s : Editor) :
  isProcessing s = true -> handleMouseDown e s = s.
Proof. intros Hb. unfold handleMouseDown. rewrite Hb. reflexivity. Qed.

Lemma handleMouseMove_busy (e : InputEvent) (s : Editor) :
  isProcessing s = true -> handleMouseMove e s = s.
Proof. intros Hb. unfold handleMouseMove. rewrite Hb. reflexivity. Qed.

(** Pointer-up and wheel do not look at the flag at all. *)
Lemma handleMouseUp_ignores_busy (b : bool) (s : Editor) :
  handleMouseUp (withProcessing b s) = withProcessing b (handleMouseUp s).
Proof.
  unfold handleMouseUp; simpl.
  destruct (EditorMode_eqb (mode s) PAN); [reflexivity|].
  destruct (EditorMode_eqb (mode s) DRAW && isDrawing s)%bool; [|reflexivity].
  destruct (currentPath s); reflexivity.
Qed.

Lemma handleWheel_ignores_busy (b : bool) (deltaY : Q) (s : Editor) :
  handleWheel deltaY (withProcessing b s) = withProcessing b (handleWheel deltaY s).
Proof. reflexivity. Qed.

(** C5 at the failing inputs.  With the busy flag set: releasing the
    pointer commits the stroke in progress to the history and ends the
    recording; releasing ends a pan; a wheel step changes the scale. *)
Theorem busy_release_and_wheel_change_state :
  isProcessing Scenario.busyMidStroke = true /\
  length (paths Scenario.busyMidStroke) = 1%nat /\
  length (paths (step Scenario.busyMidStroke PointerUp)) = 2%nat /\
  isDrawing Scenario.busyMidStroke = true /\
  isDrawing (step Scenario.busyMidStroke PointerUp) = false /\
  scale Scenario.busyMidStroke == 0.9 /\
  scale (step Scenario.busyMidStroke (Wheel 100)) == 0.8 /\
  isProcessing Scenario.busyMidPan = true /\
  isDragging Scenario.busyMidPan = true /\
  isDragging (step Scenario.busyMidPan PointerUp) = false.
Proof. repeat split; vm_compute; reflexivity. Qed.

(** ** Mode switches during a gesture *)

(** A pointer-move in draw mode never pans, and one in pan mode never
    records; a release in pan mode never commits. *)
Lemma handleMouseMove_draw_no_pan (e : InputEvent) (s : Editor) :
  mode s = DRAW ->
  offset (handleMouseMove e s) = offset s /\
  lastMousePos (handleMouseMove e s) = lastMousePos s.
Proof.
  intros Hm. unfold handleMouseMove. rewrite Hm. simpl.
  destruct (isProcessing s); [split; reflexivity|].
  destruct (isDrawing s); [|split; reflexivity].
  destruct (getRelativeCoords s e); split; reflexivity.
Qed.

Lemma handleMouseMove_pan_no_record (e : InputEvent) (s : Editor) :
  mode s = PAN ->
  currentPath (handleMouseMove e s) = currentPath s /\
  paths (handleMouseMove e s) = paths s.
Proof.
  intros Hm. unfold handleMouseMove. rewrite Hm. simpl.
  destruct (isProcessing s); [split; reflexivity|].
  destruct (isDragging s); split; reflexivity.
Qed.

(** C6, as the code has it.  The mode is not latched: a pointer-move and a
    pointer-up act on the mode current at that event, and only if the
    gesture flag of that mode is set.  While the mode is draw, a move of a
    recording gesture appends its point, pans nothing, and the release
    commits the stroke; while the mode is pan, a move of a dragging
    gesture adds the pointer displacement to the offset, records nothing,
    and the release ends the drag and commits nothing.  So a gesture is
    interpreted in its starting mode for as long as the mode is not
    switched, and after a switch its moves neither extend the stroke
    (draw to pan) nor pan (pan to draw). *)
Theorem gesture_follows_current_mode (s : Editor) (e : InputEvent) :
  isProcessing s = false ->
  (mode s = DRAW ->
     offset (handleMouseMove e s) = offset s /\
     (isDrawing s = true ->
        forall coords,
          getRelativeCoords s e = Some coords ->
          currentPath (handleMouseMove e s) = currentPath s ++ [coords]) /\
     (isDrawing s = false ->
        currentPath (handleMouseMove e s) = currentPath s) /\
     (isDrawing s = true -> currentPath s <> [] ->
        paths (handleMouseUp s) =
          paths s ++ [mkDrawPath (currentPath s) (brushSize s)])) /\
  (mode s = PAN ->
     currentPath (handleMouseMove e s) = currentPath s /\
     paths (handleMouseUp s) = paths s /\
     currentPath (handleMouseUp s) = currentPath s /\
     isDragging (handleMouseUp s) = false /\
     (isDragging s = true ->
        offset (handleMouseMove e s) =
          mkPoint (x (offset s) + (clientX e - x (lastMousePos s)))
                  (y (offset s) + (clientY e - y (lastMousePos s)))) /\
     (isDragging s = false -> offset (handleMouseMove e s) = offset s)).
Proof.
  intros Hb. split; intros Hm.
  - split; [apply handleMouseMove_draw_no_pan, Hm|].
    split; [|split].
    + intros Hd coords Hc. unfold handleMouseMove.
      rewrite Hb, Hm, Hd, Hc. reflexivity.
    + intros Hd. unfold handleMouseMove. rewrite Hb, Hm, Hd. reflexivity.
    + intros Hd Hne.
      apply (handleMouseUp_recording s (conj Hm (conj Hd Hne))).
  - split; [apply handleMouseMove_pan_no_record, Hm|].
    unfold handleMouseUp, handleMouseMove. rewrite Hb, Hm. simpl.
    repeat split; intros Hd; rewrite Hd; reflexivity.
Qed.

(** The same move extends the stroke in draw mode and leaves it alone
    once the mode is pan. *)
Lemma gesture_follows_current_mode_witness :
  length (currentPath (handleMouseMove (MouseEvent 320 310) Scenario.midStroke))
    = 2%nat /\
  currentPath
    (handleMouseMove (MouseEvent 320 310) (setMode PAN Scenario.midStroke)) =
    currentPath Scenario.midStroke.
Proof.
  split.
  - destruct (proj1 (gesture_follows_current_mode Scenario.midStroke
                       (MouseEvent 320 310) eq_refl) eq_refl)
      as (_ & Hadd & _).
    rewrite (Hadd eq_refl _ eq_refl). reflexivity.
  - apply (proj2 (gesture_follows_current_mode (setMode PAN Scenario.midStroke)
                    (MouseEvent 320 310) eq_refl) eq_refl).
Defined.

(** C6 as the specification states it fails.  A draw gesture whose mode is
    switched to pan after the pointer-down: the move adds no point, the
    release commits nothing; the same gesture without the switch commits
    one stroke of two points.  A pan gesture whose mode is switched to
    draw after the pointer-down: the move does not pan; without the
    switch the offset moves by the pointer displacement (40, 50). *)
Lemma mode_switch_counterexample :
  let switched := run Scenario.ready Scenario.drawGestureSwitched in
  let plain := run Scenario.ready Scenario.drawGesture in
  let panSwitched := run Scenario.ready Scenario.panGestureSwitched in
  let panPlain := run Scenario.ready Scenario.panGesture in
  (paths switched = [] /\ length (currentPath switched) = 1%nat /\
   offset switched = offset Scenario.ready) /\
  (map (fun p => length (points p)) (paths plain) = [2%nat] /\
   isDrawing plain = false) /\
  (offset panSwitched = offset Scenario.ready /\ currentPath panSwitched = []) /\
  (x (offset panPlain) == x (offset Scenario.ready) + 40 /\
   y (offset panPlain) == y (offset Scenario.ready) + 50 /\
   isDragging panPlain = false).
Proof. cbv zeta. repeat split; vm_compute; reflexivity. Qed.

(** ** Loading a new image *)

(** What an image load does when the container is attached: the image is
    recorded, the viewport is refitted and the history is emptied; the
    mode, the brush size, the busy flag and the two gesture flags are kept
    -- and so is the stroke in progress. *)
Lemma imageOnLoad_effect (img : ImageDimensions) (s : Editor) (c : Container) :
  containerRef s = Some c ->
  let s' := imageOnLoad img s in
  imageRef s' = Some img /\
  paths s' = [] /\
  scale s' =
    Qmin (Qmin (clientWidth c / width img) (clientHeight c / height img)) 1 * 0.9 /\
  offset s' =
    mkPoint ((clientWidth c - width img * scale s') / 2)
            ((clientHeight c - height img * scale s') / 2) /\
  mode s' = mode s /\ brushSize s' = brushSize s /\
  isDrawing s' = isDrawing s /\ isDragging s' = isDragging s /\
  currentPath s' = currentPath s.
Proof.
  intros Hc. unfold imageOnLoad, fitImageToContainer. simpl. rewrite Hc.
  repeat split.
Qed.

(** Without a container nothing but the image ref changes. *)
Lemma imageOnLoad_no_container (img : ImageDimensions) (s : Editor) :
  containerRef s = None -> imageOnLoad img s = withImageRef (Some img) s.
Proof.
  intros Hc. unfold imageOnLoad, fitImageToContainer. simpl. rewrite Hc.
  reflexivity.
Qed.

(** C7 at the failing input.  A new image that finishes loading while a
    stroke is being drawn empties the history and refits the viewport but
    keeps the stroke in progress and the recording flag; the release that
    follows commits that stroke, drawn on the previous image, to the
    history of the new image. *)
Theorem image_load_keeps_stroke_in_progress :
  let loaded := step Scenario.midStroke (ImageLoaded Scenario.photo400x400) in
  imageRef loaded = Some Scenario.photo400x400 /\
  paths loaded = [] /\
  scale loaded == 0.9 /\
  mode loaded = mode Scenario.midStroke /\
  brushSize loaded = brushSize Scenario.midStroke /\
  currentPath loaded = currentPath Scenario.midStroke /\
  length (currentPath loaded) = 1%nat /\
  isDrawing loaded = true /\
  paths (step loaded PointerUp) =
    [mkDrawPath (currentPath Scenario.midStroke) 20].
Proof. cbv zeta. repeat split; vm_compute; reflexivity. Qed.

(** ** Mask rasterizer *)

Lemma lineTo_fold_canvas (pts : list Point) (ctx : Context2D) :
  canvas (fold_left (fun c p => lineTo p c) pts ctx) = canvas ctx.
Proof.
  revert ctx. induction pts as [|p pts IH]; intros ctx; [reflexivity|].
  simpl. rewrite IH. reflexivity.
Qed.

Lemma strokeMaskPath_size (ctx : Context2D) (path : DrawPath) :
  canvas_width (canvas (strokeMaskPath ctx path)) = canvas_width (canvas ctx) /\
  canvas_height (canvas (strokeMaskPath ctx path)) = canvas_height (canvas ctx).
Proof.
  unfold strokeMaskPath. destruct (points path) as [|p0 pts]; [split; reflexivity|].
  unfold stroke, paint. cbn [canvas canvas_width canvas_height].
  rewrite lineTo_fold_canvas. split; reflexivity.
Qed.

Lemma strokeMaskPaths_size (l : list DrawPath) (ctx : Context2D) :
  canvas_width (canvas (fold_left strokeMaskPath l ctx)) =
    canvas_width (canvas ctx) /\
  canvas_height (canvas (fold_left strokeMaskPath l ctx)) =
    canvas_height (canvas ctx).
Proof.
  revert ctx. induction l as [|path l IH]; intros ctx; [split; reflexivity|].
  simpl. destruct (IH (strokeMaskPath ctx path)) as [Hw Hh].
  destruct (strokeMaskPath_size ctx path) as [Hw' Hh'].
  rewrite Hw, Hh. split; assumption.
Qed.

(** The mask is a function of the loaded image and the history alone. *)
Lemma generateMask_inputs (s s' : Editor) :
  imageRef s = imageRef s' -> paths s = paths s' ->
  generateMask s = generateMask s'.
Proof. intros Hi Hp. unfold generateMask. rewrite Hi, Hp. reflexivity. Qed.

(** C9. With an image loaded, [generateMask] yields a PNG of a canvas
    whose width and height are the image's own, whatever the stroke
    history; and it yields the very same mask for every other scale and
    offset of the viewport. *)
Theorem generateMask_dimensions (s : Editor) (img : ImageDimensions) :
  imageRef s = Some img ->
  exists m,
    generateMask s = Some (CanvasPNG m) /\
    canvas_width m = width img /\
    canvas_height m = height img /\
    (forall k off,
        generateMask (setOffset (fun _ => off) (setScale k s)) =
          Some (CanvasPNG m)).
Proof.
  intros Hi. unfold generateMask. rewrite Hi. eexists.
  split; [reflexivity|].
  split; [|split].
  - apply strokeMaskPaths_size.
  - apply strokeMaskPaths_size.
  - intros k off. cbn [imageRef paths setOffset setScale]. rewrite Hi.
    reflexivity.
Qed.

(** The mask of the stroked, zoomed and panned photo is 800x600. *)
Lemma generateMask_dimensions_witness :
  exists m,
    generateMask Scenario.stroked = Some (CanvasPNG m) /\
    canvas_width m = 800 /\
    canvas_height m = 600 /\
    (forall k off,
        generateMask (setOffset (fun _ => off) (setScale k Scenario.stroked)) =
          Some (CanvasPNG m)).
Proof.
  apply (generateMask_dimensions Scenario.stroked Scenario.photo800x600).
  reflexivity.
Defined.

(** ** Generation requests *)

(** Rendering a world that shows the editor keeps the instance and hands
    it the current flag. *)
Lemma render_editing (w : App.World) (image : DataURL) (ed : Editor) :
  App.originalImage (App.state w) = Some image ->
  App.processedImage (App.state w) = None ->
  App.editor w = Some ed ->
  App.render w =
    App.mkWorld (App.state w)
      (Some (withProcessing (App.isProcessing (App.state w)) ed))
      (App.alerts w) (App.consoleErrors w).
Proof.
  intros Ho Hp He. unfold App.render. rewrite Ho, Hp, He. reflexivity.
Qed.

(** The flag is cleared when the request settles, whichever way. *)
Lemma render_isProcessing (w : App.World) :
  App.isProcessing (App.state (App.render w)) = App.isProcessing (App.state w).
Proof.
  unfold App.render.
  destruct (App.originalImage (App.state w)), (App.processedImage (App.state w));
    reflexivity.
Qed.

(** C8. With an image loaded and the editor on screen, [handleGenerate]
    sets the busy flag and suspends at the remote call.  When the call
    settles, whatever the world then is, the busy flag ends up cleared, on
    resolution as on rejection.  On rejection one failure alert is shown,
    the images are untouched, and the editor instance found at settlement
    is kept with every field but the busy prop unchanged; if nothing
    happened while the request was in flight, the history, scale and
    offset are exactly those from before the call, and generating again
    yields the same mask. *)
Theorem handleGenerate_rejected (w : App.World) (image mask : DataURL)
    (ed : Editor) (error : string) :
  App.originalImage (App.state w) = Some image ->
  App.processedImage (App.state w) = None ->
  App.editor w = Some ed ->
  exists w1 resume,
    App.handleGenerate mask w = App.Await w1 image mask resume /\
    App.isProcessing (App.state w1) = true /\
    App.editor w1 = Some (withProcessing true ed) /\
    (forall wk result,
        App.isProcessing (App.state (resume (App.Resolved result) wk)) = false) /\
    (forall wk err,
        App.isProcessing (App.state (resume (App.Rejected err) wk)) = false) /\
    (forall wk imagek edk err,
        App.originalImage (App.state wk) = Some imagek ->
        App.processedImage (App.state wk) = None ->
        App.editor wk = Some edk ->
        let w2 := resume (App.Rejected err) wk in
        App.alerts w2 =
          App.alerts wk ++ ["处理失败，请稍后重试或检查网络设置。"%string] /\
        App.originalImage (App.state w2) = Some imagek /\
        App.processedImage (App.state w2) = None /\
        App.editor w2 = Some (withProcessing false edk)) /\
    (let final := App.settle (App.handleGenerate mask w) (App.Rejected error) in
     App.isProcessing (App.state final) = false /\
     App.alerts final =
       App.alerts w ++ ["处理失败，请稍后重试或检查网络设置。"%string] /\
     exists ed',
       App.editor final = Some ed' /\
       paths ed' = paths ed /\ scale ed' = scale ed /\ offset ed' = offset ed /\
       currentPath ed' = currentPath ed /\ mode ed' = mode ed /\
       brushSize ed' = brushSize ed /\
       generateMask ed' = generateMask ed).
Proof.
  intros Ho Hp He. unfold App.handleGenerate. rewrite Ho.
  do 2 eexists. split; [reflexivity|].
  assert (Hrej : forall wk imagek edk err,
             App.originalImage (App.state wk) = Some imagek ->
             App.processedImage (App.state wk) = None ->
             App.editor wk = Some edk ->
             App.render
               (App.setIsProcessing false
                  (App.alert "处理失败，请稍后重试或检查网络设置。"
                     (App.console_error "Failed to process image:" err wk))) =
             App.mkWorld
               (App.mkState (Some imagek) None false
                  (App.loadingText (App.state wk)))
               (Some (withProcessing false edk))
               (App.alerts wk ++ ["处理失败，请稍后重试或检查网络设置。"%string])
               (App.consoleErrors wk ++
                  [("Failed to process image:"%string, err)])).
  { intros wk imagek edk err Hok Hpk Hek.
    rewrite (render_editing _ imagek edk); simpl; try assumption.
    rewrite Hok, Hpk. reflexivity. }
  assert (Hw1 : App.render
                  (App.setLoadingText "小刘正在卖力擦除中..."
                     (App.setIsProcessing true w)) =
                App.mkWorld
                  (App.mkState (Some image) None true "小刘正在卖力擦除中...")
                  (Some (withProcessing true ed))
                  (App.alerts w) (App.consoleErrors w)).
  { rewrite (render_editing _ image ed); simpl; try assumption.
    rewrite Ho, Hp. reflexivity. }
  split; [rewrite render_isProcessing; reflexivity|].
  split; [rewrite Hw1; reflexivity|].
  split; [intros wk result; rewrite render_isProcessing; reflexivity|].
  split; [intros wk err; rewrite render_isProcessing; reflexivity|].
  split.
  - intros wk imagek edk err Hok Hpk Hek. cbv zeta.
    rewrite (Hrej wk imagek edk err Hok Hpk Hek). repeat split.
  - cbv zeta. unfold App.settle. rewrite Hw1.
    rewrite (Hrej _ image (withProcessing true ed) error);
      [|reflexivity|reflexivity|reflexivity].
    split; [reflexivity|]. split; [reflexivity|].
    eexists. split; [reflexivity|]. repeat split.
Qed.

(** A rejected request on the stroked photo: flag cleared, one alert, the
    editor as it was. *)
Lemma handleGenerate_rejected_witness :
  let final :=
    App.settle
      (App.handleGenerate (CanvasPNG (createCanvas 800 600)) Scenario.editing)
      (App.Rejected "503") in
  App.isProcessing (App.state final) = false /\
  App.alerts final = ["处理失败，请稍后重试或检查网络设置。"%string] /\
  App.editor final = Some Scenario.stroked.
Proof.
  destruct (handleGenerate_rejected Scenario.editing (FileData "photo")
              (CanvasPNG (createCanvas 800 600)) Scenario.stroked "503"
              eq_refl eq_refl eq_refl)
    as (w1 & resume & _ & _ & _ & _ & _ & _ & Hfinal).
  destruct Hfinal as (Hbusy & Halerts & _).
  split; [exact Hbusy|]. split; [exact Halerts|]. vm_compute. reflexivity.
Defined.

(** * Further properties of the code *)

(** ** Recording, undo and the shape of the history *)

Lemma handleMouseMove_recording (e : InputEvent) (s : Editor) (c : Container)
    (img : ImageDimensions) :
  isProcessing s = false -> mode s = DRAW -> isDrawing s = true ->
  containerRef s = Some c -> imageRef s = Some img ->
  handleMouseMove e s = setCurrentPath (fun prev => prev ++ [imagePoint s c e]) s.
Proof.
  intros Hb Hm Hd Hc Hi. unfold handleMouseMove, getRelativeCoords.
  rewrite Hb, Hm, Hd, Hc, Hi. reflexivity.
Qed.

Lemma moves_recording (es : list InputEvent) (s : Editor) (c : Container)
    (img : ImageDimensions) :
  isProcessing s = false -> mode s = DRAW -> isDrawing s = true ->
  containerRef s = Some c -> imageRef s = Some img ->
  run s (moves es) =
    setCurrentPath (fun prev => prev ++ map (imagePoint s c) es) s.
Proof.
  revert s. induction es as [|e es IH]; intros s Hb Hm Hd Hc Hi.
  - destruct s; unfold setCurrentPath; simpl. rewrite app_nil_r. reflexivity.
  - change (run s (moves (e :: es)))
      with (run (handleMouseMove e s) (moves es)).
    rewrite (handleMouseMove_recording e s c img Hb Hm Hd Hc Hi).
    rewrite IH by assumption.
    unfold setCurrentPath; simpl. rewrite <- app_assoc. reflexivity.
Qed.

Lemma run_snoc (s : Editor) (l : list Action) (a : Action) :
  run s (l ++ [a]) = step (run s l) a.
Proof. unfold run. rewrite fold_left_app. reflexivity. Qed.

Lemma gesture_before_release (s : Editor) (c : Container)
    (img : ImageDimensions) (e : InputEvent) (es : list InputEvent) :
  isProcessing s = false -> mode s = DRAW ->
  containerRef s = Some c -> imageRef s = Some img ->
  run s (PointerDown e :: moves es) =
    setCurrentPath (fun _ => map (imagePoint s c) (e :: es))
      (setIsDrawing true s).
Proof.
  intros Hb Hm Hc Hi.
  change (run s (PointerDown e :: moves es))
    with (run (handleMouseDown e s) (moves es)).
  assert (Hdown : handleMouseDown e s =
            setCurrentPath (fun _ => [imagePoint s c e]) (setIsDrawing true s)).
  { unfold handleMouseDown, getRelativeCoords. rewrite Hb, Hm, Hc, Hi.
    reflexivity. }
  rewrite Hdown.
  rewrite (moves_recording es _ c img)
    by (simpl; first [assumption | reflexivity]).
  reflexivity.
Qed.

(** X1. A draw gesture on a loaded image, with no request in flight,
    commits one stroke whose points are the image positions of the
    pointer-down and of every pointer-move, in the order of the events and
    without any of them dropped or merged, and whose size is the brush
    size. *)
Theorem gesture_records_every_point (s : Editor) (c : Container)
    (img : ImageDimensions) (e : InputEvent) (es : list InputEvent) :
  isProcessing s = false -> mode s = DRAW ->
  containerRef s = Some c -> imageRef s = Some img ->
  paths (run s (PointerDown e :: moves es ++ [PointerUp])) =
    paths s ++ [mkDrawPath (map (imagePoint s c) (e :: es)) (brushSize s)].
Proof.
  intros Hb Hm Hc Hi.
  change (PointerDown e :: moves es ++ [PointerUp])
    with ((PointerDown e :: moves es) ++ [PointerUp]).
  rewrite run_snoc, (gesture_before_release s c img e es Hb Hm Hc Hi).
  simpl. unfold handleMouseUp. simpl. rewrite Hm. reflexivity.
Qed.

(** Three pointer positions on the loaded photo become three image points. *)
Lemma gesture_records_every_point_witness :
  map (fun p => length (points p))
    (paths
       (run Scenario.ready
          [PointerDown (MouseEvent 230 220); PointerMove (MouseEvent 320 310);
           PointerMove (MouseEvent 320 310); PointerUp])) = [3%nat].
Proof.
  exact (f_equal (map (fun p => length (points p)))
           (gesture_records_every_point Scenario.ready
              Scenario.container1000x800 Scenario.photo800x600
              (MouseEvent 230 220) [MouseEvent 320 310; MouseEvent 320 310]
              eq_refl eq_refl eq_refl eq_refl)).
Defined.

Lemma firstn_snoc_length {A : Type} (l : list A) (a : A) :
  firstn (length (l ++ [a]) - 1) (l ++ [a]) = l.
Proof.
  rewrite length_app. simpl.
  replace (length l + 1 - 1)%nat with (length l + 0)%nat by lia.
  rewrite firstn_app_2. simpl. apply app_nil_r.
Qed.

(** X2. Drawing a stroke and clicking undo is a round trip: from an editor
    with a loaded image, no request in flight and nothing in progress, the
    whole editor state afterwards is the state before. *)
Theorem stroke_then_undo (s : Editor) (c : Container) (img : ImageDimensions)
    (e : InputEvent) (es : list InputEvent) :
  isProcessing s = false -> mode s = DRAW ->
  containerRef s = Some c -> imageRef s = Some img ->
  isDrawing s = false -> currentPath s = [] ->
  run s (PointerDown e :: moves es ++ [PointerUp; ClickUndo]) = s.
Proof.
  intros Hb Hm Hc Hi Hd Hp.
  change (PointerDown e :: moves es ++ [PointerUp; ClickUndo])
    with ((PointerDown e :: moves es) ++ [PointerUp; ClickUndo]).
  unfold run. rewrite fold_left_app. fold (run s (PointerDown e :: moves es)).
  rewrite (gesture_before_release s c img e es Hb Hm Hc Hi).
  destruct s as [busy cref iref md bs ps sc off drag lastp drawing cur].
  simpl in *. subst.
  unfold handleMouseUp; simpl.
  unfold actionsDisabled; simpl. rewrite length_app.
  replace (length ps + length [_])%nat with (S (length ps)) by (simpl; lia).
  simpl.
  unfold undo, setPaths; simpl.
  rewrite firstn_snoc_length. reflexivity.
Qed.

Lemma stroke_then_undo_witness :
  run Scenario.ready
    [PointerDown (MouseEvent 230 220); PointerMove (MouseEvent 320 310);
     PointerUp; ClickUndo] = Scenario.ready.
Proof.
  apply (stroke_then_undo Scenario.ready Scenario.container1000x800
           Scenario.photo800x600 (MouseEvent 230 220) [MouseEvent 320 310]);
    reflexivity.
Defined.

(** X3. Undoing [n] times keeps exactly the first [length - n] strokes of
    the history, unchanged and in order, and changes nothing else; undoing
    more often than there are strokes leaves the empty history. *)
Theorem undo_iterated (n : nat) (s : Editor) :
  Nat.iter n undo s =
    setPaths (fun prev => firstn (length prev - n) prev) s /\
  (length (paths s) <= n -> paths (Nat.iter n undo s) = [])%nat.
Proof.
  assert (H : Nat.iter n undo s =
              setPaths (fun prev => firstn (length prev - n) prev) s).
  { induction n as [|n IH].
    - destruct s as [busy cref iref md bs paths0 sc off drag lastp dr cur].
      unfold setPaths; simpl.
      replace (length paths0 - 0)%nat with (length paths0) by lia.
      rewrite firstn_all. reflexivity.
    - simpl. rewrite IH. unfold undo, setPaths; simpl.
      rewrite firstn_firstn, length_firstn.
      replace (Nat.min (Nat.min (length (paths s) - n) (length (paths s)) - 1)
                 (length (paths s) - n))
        with (length (paths s) - S n)%nat by lia.
      reflexivity. }
  split; [exact H|].
  intros Hle. rewrite H. simpl.
  replace (length (paths s) - n)%nat with 0%nat by lia. reflexivity.
Qed.

(** X4. Whatever the action, the history afterwards is the history before,
    or the history before with one stroke that has points added at the
    end, or the history before without its last stroke, or empty.  Strokes
    already in the history are never modified or reordered. *)
Theorem history_changes_at_the_end (s : Editor) (a : Action) :
  paths (step s a) = paths s \/
  (exists p, points p <> [] /\ paths (step s a) = paths s ++ [p]) \/
  paths (step s a) = firstn (length (paths s) - 1) (paths s) \/
  paths (step s a) = [].
Proof.
  destruct a as [e|e| |dy|m|v| | |img|c|b]; simpl;
    try (left; reflexivity).
  - left. apply handleMouseDown_frame.
  - left. apply handleMouseMove_frame.
  - unfold handleMouseUp.
    destruct (EditorMode_eqb (mode s) PAN); [left; reflexivity|].
    destruct (EditorMode_eqb (mode s) DRAW && isDrawing s)%bool;
      [|left; reflexivity].
    destruct (currentPath s) as [|p0 rest] eqn:Hcp; [left; reflexivity|].
    right; left. eexists. split; [|reflexivity]. simpl. discriminate.
  - destruct (actionsDisabled s); [left; reflexivity|].
    right; right; left. reflexivity.
  - destruct (actionsDisabled s); [left; reflexivity|].
    right; right; right. reflexivity.
  - unfold imageOnLoad, fitImageToContainer; simpl.
    destruct (containerRef s); [right; right; right|left]; reflexivity.
Qed.

Lemma strokesNonEmpty_app (l1 l2 : list DrawPath) :
  strokesNonEmpty (l1 ++ l2) = (strokesNonEmpty l1 && strokesNonEmpty l2)%bool.
Proof. apply forallb_app. Qed.

Lemma strokesNonEmpty_firstn (n : nat) (l : list DrawPath) :
  strokesNonEmpty l = true -> strokesNonEmpty (firstn n l) = true.
Proof. apply forallb_firstn. Qed.

Lemma step_strokesNonEmpty (s : Editor) (a : Action) :
  strokesNonEmpty (paths s) = true -> strokesNonEmpty (paths (step s a)) = true.
Proof.
  intros H.
  destruct a as [e|e| |dy|m|v| | |img|c|b]; simpl; try exact H.
  - rewrite (proj1 (handleMouseDown_frame e s)). exact H.
  - rewrite (proj1 (handleMouseMove_frame e s)). exact H.
  - unfold handleMouseUp.
    destruct (EditorMode_eqb (mode s) PAN); [exact H|].
    destruct (EditorMode_eqb (mode s) DRAW && isDrawing s)%bool; [|exact H].
    destruct (currentPath s) as [|p0 rest] eqn:Hcp; [exact H|].
    simpl. rewrite strokesNonEmpty_app, H. reflexivity.
  - destruct (actionsDisabled s); [exact H|].
    apply strokesNonEmpty_firstn, H.
  - destruct (actionsDisabled s); [exact H | reflexivity].
  - unfold imageOnLoad, fitImageToContainer; simpl.
    destruct (containerRef s); [reflexivity | exact H].
Qed.

Lemma run_strokesNonEmpty (l : list Action) (s : Editor) :
  strokesNonEmpty (paths s) = true -> strokesNonEmpty (paths (run s l)) = true.
Proof.
  revert s. induction l as [|a l IH]; intros s H; [exact H|].
  apply IH, step_strokesNonEmpty, H.
Qed.

(** X5. No stroke without points is ever stored: in every state reached
    from the mounted editor, each stroke of the history has at least one
    point. *)
Theorem reachable_strokes_have_points (busy : bool) (l : list Action) :
  Forall (fun p => points p <> []) (paths (run (initialEditor busy) l)).
Proof.
  pose proof (run_strokesNonEmpty l (initialEditor busy) eq_refl) as H.
  unfold strokesNonEmpty in H. rewrite forallb_forall in H.
  apply Forall_forall. intros p Hin. specialize (H p Hin).
  destruct (points p); [discriminate H | discriminate].
Qed.

(** ** Panning *)










(** ** Zooming *)




(** ** What the two canvases receive *)

Lemma lineTo_fold (pts : list Point) (ctx : Context2D) :
  fold_left (fun c p => lineTo p c) pts ctx =
    set_subpath (currentSubpath ctx ++ map LineTo pts) ctx.
Proof.
  revert ctx. induction pts as [|p pts IH]; intros ctx.
  - destruct ctx; unfold set_subpath; simpl. rewrite app_nil_r. reflexivity.
  - simpl. rewrite IH. unfold lineTo, set_subpath; simpl.
    rewrite <- app_assoc. reflexivity.
Qed.

Lemma strokeMaskPath_adds (ctx : Context2D) (path : DrawPath) :
  lineCap ctx = "round"%string -> lineJoin ctx = "round"%string ->
  painted (canvas (strokeMaskPath ctx path)) =
    painted (canvas ctx) ++ strokeLine "#FFFFFF" path /\
  canvas_width (canvas (strokeMaskPath ctx path)) = canvas_width (canvas ctx) /\
  canvas_height (canvas (strokeMaskPath ctx path)) = canvas_height (canvas ctx) /\
  lineCap (strokeMaskPath ctx path) = "round"%string /\
  lineJoin (strokeMaskPath ctx path) = "round"%string.
Proof.
  intros Hcap Hjoin. unfold strokeMaskPath, strokeLine.
  destruct (points path) as [|p0 pts].
  - rewrite app_nil_r. repeat split; assumption.
  - rewrite lineTo_fold. unfold stroke, paint; simpl.
    rewrite Hcap, Hjoin. repeat split.
Qed.

Lemma strokeOverlayPath_adds (ctx : Context2D) (path : DrawPath) :
  lineCap ctx = "round"%string -> lineJoin ctx = "round"%string ->
  painted (canvas (strokeOverlayPath ctx path)) =
    painted (canvas ctx) ++ strokeLine overlayStyle path /\
  canvas_width (canvas (strokeOverlayPath ctx path)) =
    canvas_width (canvas ctx) /\
  canvas_height (canvas (strokeOverlayPath ctx path)) =
    canvas_height (canvas ctx) /\
  lineCap (strokeOverlayPath ctx path) = "round"%string /\
  lineJoin (strokeOverlayPath ctx path) = "round"%string.
Proof.
  intros Hcap Hjoin. unfold strokeOverlayPath, strokeLine.
  destruct (points path) as [|p0 pts].
  - rewrite app_nil_r. repeat split; assumption.
  - rewrite lineTo_fold. unfold stroke, paint; simpl.
    rewrite Hcap, Hjoin. repeat split.
Qed.

Lemma strokeCurrentPath_adds (s : Editor) (ctx : Context2D) :
  lineCap ctx = "round"%string -> lineJoin ctx = "round"%string ->
  painted (canvas (strokeCurrentPath s ctx)) =
    painted (canvas ctx) ++
    strokeLine overlayStyle (mkDrawPath (currentPath s) (brushSize s)) /\
  canvas_width (canvas (strokeCurrentPath s ctx)) = canvas_width (canvas ctx) /\
  canvas_height (canvas (strokeCurrentPath s ctx)) = canvas_height (canvas ctx).
Proof.
  intros Hcap Hjoin. unfold strokeCurrentPath, strokeLine. simpl.
  destruct (currentPath s) as [|p0 pts].
  - rewrite app_nil_r. repeat split.
  - rewrite lineTo_fold. unfold stroke, paint; simpl.
    rewrite Hcap, Hjoin. repeat split.
Qed.

(** Stroking a whole history adds the line of each stroke, in order. *)
Lemma strokeMaskPaths_adds (l : list DrawPath) (ctx : Context2D) :
  lineCap ctx = "round"%string -> lineJoin ctx = "round"%string ->
  painted (canvas (fold_left strokeMaskPath l ctx)) =
    painted (canvas ctx) ++ flat_map (strokeLine "#FFFFFF") l.
Proof.
  revert ctx. induction l as [|path l IH]; intros ctx Hcap Hjoin; simpl.
  - rewrite app_nil_r. reflexivity.
  - destruct (strokeMaskPath_adds ctx path Hcap Hjoin)
      as (Hp & _ & _ & Hcap' & Hjoin').
    rewrite (IH _ Hcap' Hjoin'), Hp, app_assoc. reflexivity.
Qed.

Lemma strokeOverlayPaths_adds (l : list DrawPath) (ctx : Context2D) :
  lineCap ctx = "round"%string -> lineJoin ctx = "round"%string ->
  painted (canvas (fold_left strokeOverlayPath l ctx)) =
    painted (canvas ctx) ++ flat_map (strokeLine overlayStyle) l /\
  canvas_width (canvas (fold_left strokeOverlayPath l ctx)) =
    canvas_width (canvas ctx) /\
  canvas_height (canvas (fold_left strokeOverlayPath l ctx)) =
    canvas_height (canvas ctx) /\
  lineCap (fold_left strokeOverlayPath l ctx) = "round"%string /\
  lineJoin (fold_left strokeOverlayPath l ctx) = "round"%string.
Proof.
  revert ctx. induction l as [|path l IH]; intros ctx Hcap Hjoin; simpl.
  - rewrite app_nil_r. repeat split; assumption.
  - destruct (strokeOverlayPath_adds ctx path Hcap Hjoin)
      as (Hp & Hw & Hh & Hcap' & Hjoin').
    destruct (IH _ Hcap' Hjoin') as (Hp2 & Hw2 & Hh2 & Hcap2 & Hjoin2).
    rewrite Hp2, Hw2, Hh2, Hp, Hw, Hh, app_assoc. repeat split; assumption.
Qed.

Lemma generateMask_painted (s : Editor) (img : ImageDimensions) :
  imageRef s = Some img ->
  exists m,
    generateMask s = Some (CanvasPNG m) /\
    canvas_width m = width img /\ canvas_height m = height img /\
    painted m =
      FillRect "#000000" 0 0 (width img) (height img) ::
      flat_map (strokeLine "#FFFFFF") (paths s).
Proof.
  intros Hi. unfold generateMask. rewrite Hi. eexists.
  split; [reflexivity|].
  split; [apply strokeMaskPaths_size|].
  split; [apply strokeMaskPaths_size|].
  rewrite strokeMaskPaths_adds by reflexivity. reflexivity.
Qed.

(** X10. With an image loaded, the mask is a canvas of the image's size
    that received one black fill over its whole area and then, for each
    stroke of the history in order, one white line of the stroke's own
    width with round caps and joins through all of its points; a stroke
    without points adds nothing.  With an empty history the mask is the
    black fill alone. *)
Theorem generateMask_content (s : Editor) (img : ImageDimensions) :
  imageRef s = Some img ->
  generateMask s =
    Some
      (CanvasPNG
         (mkCanvas (width img) (height img)
            (FillRect "#000000" 0 0 (width img) (height img) ::
             flat_map (strokeLine "#FFFFFF") (paths s)))) /\
  (paths s = [] ->
   generateMask s =
     Some
       (CanvasPNG
          (mkCanvas (width img) (height img)
             [FillRect "#000000" 0 0 (width img) (height img)]))).
Proof.
  intros Hi.
  destruct (generateMask_painted s img Hi) as (m & Hm & Hw & Hh & Hp).
  assert (H : generateMask s =
              Some
                (CanvasPNG
                   (mkCanvas (width img) (height img)
                      (FillRect "#000000" 0 0 (width img) (height img) ::
                       flat_map (strokeLine "#FFFFFF") (paths s))))).
  { rewrite Hm. destruct m as [w h ops]. simpl in *. subst. reflexivity. }
  split; [exact H|].
  intros Hnil. rewrite H, Hnil. reflexivity.
Qed.

(** The mask of the photo with one stroke of two points. *)
Lemma generateMask_content_witness :
  exists p q,
    generateMask (run Scenario.ready Scenario.drawGesture) =
      Some
        (CanvasPNG
           (mkCanvas 800 600
              [FillRect "#000000" 0 0 800 600;
               StrokePath "#FFFFFF" 20 "round" "round"
                 [MoveTo p; LineTo p; LineTo q]])).
Proof.
  do 2 eexists.
  rewrite (proj1 (generateMask_content (run Scenario.ready Scenario.drawGesture)
                    Scenario.photo800x600 eq_refl)).
  reflexivity.
Defined.

Lemma strokeLines_length (style : string) (l : list DrawPath) :
  strokesNonEmpty l = true ->
  length (flat_map (strokeLine style) l) = length l.
Proof.
  induction l as [|p l IH]; intros H; [reflexivity|].
  simpl in H. apply andb_true_iff in H. destruct H as [Hp Hl].
  simpl. rewrite length_app, (IH Hl). unfold strokeLine.
  destruct (points p); [discriminate Hp | reflexivity].
Qed.

(** X11. In every state reached from the mounted editor with an image
    loaded, the mask holds the black fill and then exactly one white line
    per stroke of the history: the guard against strokes without points
    never skips a stroke. *)
Theorem reachable_mask_one_line_per_stroke (busy : bool) (l : list Action)
    (img : ImageDimensions) :
  imageRef (run (initialEditor busy) l) = Some img ->
  exists m,
    generateMask (run (initialEditor busy) l) = Some (CanvasPNG m) /\
    length (painted m) = S (length (paths (run (initialEditor busy) l))).
Proof.
  intros Hi.
  destruct (generateMask_painted _ img Hi) as (m & Hm & _ & _ & Hp).
  exists m. split; [exact Hm|].
  rewrite Hp. simpl. f_equal.
  apply strokeLines_length, run_strokesNonEmpty. reflexivity.
Qed.

(** Two strokes on the photo, one undone, one more drawn: two lines. *)
Lemma reachable_mask_one_line_per_stroke_witness :
  exists m,
    generateMask
      (run (initialEditor false)
         ([ContainerAttached (Some Scenario.container1000x800);
           ImageLoaded Scenario.photo800x600] ++
          Scenario.drawGesture ++ Scenario.drawGesture ++ [ClickUndo] ++
          Scenario.drawGesture)) = Some (CanvasPNG m) /\
    length (painted m) = 3%nat.
Proof.
  apply (reachable_mask_one_line_per_stroke false
           ([ContainerAttached (Some Scenario.container1000x800);
             ImageLoaded Scenario.photo800x600] ++
            Scenario.drawGesture ++ Scenario.drawGesture ++ [ClickUndo] ++
            Scenario.drawGesture) Scenario.photo800x600).
  reflexivity.
Defined.

Lemma surfaceOf_restore (sc : Screen) : surfaceOf (restore sc) = surfaceOf sc.
Proof. unfold restore. destruct (saved sc); reflexivity. Qed.

Lemma drawLoop_layers (s : Editor) (img : ImageDimensions) :
  imageRef s = Some img ->
  drawLoop s =
    Some
      (mkSurface (width img) (height img)
         (ClearRect 0 0 (width img) (height img) ::
          DrawImage img 0 0 ::
          map Ink
            (flat_map (strokeLine overlayStyle) (paths s) ++
             strokeLine overlayStyle
               (mkDrawPath (currentPath s) (brushSize s))))).
Proof.
  intros Hi. unfold drawLoop. rewrite Hi. cbv zeta.
  rewrite surfaceOf_restore.
  set (base := save (drawImage img 0 0 (clearRect _ _ _ _ _))).
  assert (Hsettled : settled base =
            [ClearRect 0 0 (width img) (height img); DrawImage img 0 0])
    by reflexivity.
  assert (Hpen : pen base = getContext (createCanvas (width img) (height img)))
    by reflexivity.
  unfold surfaceOf, layersOf, withPen. cbn [settled pen].
  rewrite Hsettled, Hpen.
  set (ctx0 := set_lineJoin _ (set_lineCap _ _)).
  destruct (strokeOverlayPaths_adds (paths s) ctx0 eq_refl eq_refl)
    as (Hp & Hw & Hh & Hcap & Hjoin).
  destruct (strokeCurrentPath_adds s _ Hcap Hjoin) as (Hp2 & Hw2 & Hh2).
  rewrite Hp2, Hw2, Hh2, Hp, Hw, Hh. reflexivity.
Qed.

(** X12. With an image loaded, the visible canvas has the image's size
    whatever the scale and offset, and shows, from bottom to top: the
    cleared area, the image at (0, 0), one translucent red line per stroke
    of the history, in order and with the stroke's own width, and last the
    stroke in progress with the current brush size. *)
Theorem drawLoop_content (s : Editor) (img : ImageDimensions) :
  imageRef s = Some img ->
  forall k off,
    drawLoop (setOffset (fun _ => off) (setScale k s)) =
      Some
        (mkSurface (width img) (height img)
           (ClearRect 0 0 (width img) (height img) ::
            DrawImage img 0 0 ::
            map Ink
              (flat_map (strokeLine "rgba(255, 0, 0, 0.5)") (paths s) ++
               strokeLine "rgba(255, 0, 0, 0.5)"
                 (mkDrawPath (currentPath s) (brushSize s))))).
Proof.
  intros Hi k off.
  rewrite (drawLoop_layers _ img) by exact Hi. reflexivity.
Qed.

(** The photo with one committed stroke and a second one under way after
    the brush was widened: four layers on an 800x600 canvas. *)
Lemma drawLoop_content_witness :
  exists view,
    drawLoop
      (setOffset (fun _ => mkPoint 0 0)
         (setScale 1
            (run Scenario.ready
               (Scenario.drawGesture ++
                [SlideBrush 40; PointerDown (MouseEvent 320 310)])))) =
      Some view /\
    surface_width view = 800 /\
    map (fun l => match l with
                  | Ink (StrokePath _ w _ _ path) => Some (w, length path)
                  | _ => None
                  end) (layers view) =
      [None; None; Some (20, 3%nat); Some (40, 2%nat)].
Proof.
  eexists. split.
  - apply (drawLoop_content
             (run Scenario.ready
                (Scenario.drawGesture ++
                 [SlideBrush 40; PointerDown (MouseEvent 320 310)]))
             Scenario.photo800x600 eq_refl 1 (mkPoint 0 0)).
  - split; vm_compute; reflexivity.
Defined.

Lemma strokeLines_recoloured (l : list DrawPath) :
  map Ink (flat_map (strokeLine overlayStyle) l) =
  map (fun op => Ink (recolour overlayStyle op))
    (flat_map (strokeLine "#FFFFFF") l).
Proof.
  induction l as [|p l IH]; [reflexivity|].
  cbn [flat_map]. rewrite !map_app, IH. f_equal.
  unfold strokeLine. destruct (points p); reflexivity.
Qed.

(** X13. When no stroke is in progress, the strokes on the visible canvas
    are the strokes of the mask in another colour: the same lines, with
    the same widths and points, in the same order; and both canvases have
    the size of the image. *)
Theorem overlay_matches_mask (s : Editor) (img : ImageDimensions) :
  imageRef s = Some img -> currentPath s = [] ->
  exists m view,
    generateMask s = Some (CanvasPNG m) /\
    drawLoop s = Some view /\
    surface_width view = canvas_width m /\
    surface_height view = canvas_height m /\
    layers view =
      ClearRect 0 0 (width img) (height img) ::
      DrawImage img 0 0 ::
      map (fun op => Ink (recolour "rgba(255, 0, 0, 0.5)" op))
        (tl (painted m)).
Proof.
  intros Hi Hcp.
  destruct (generateMask_painted s img Hi) as (m & Hm & Hw & Hh & Hp).
  exists m. eexists.
  split; [exact Hm|].
  split; [apply (drawLoop_layers s img Hi)|].
  cbn [surface_width surface_height layers].
  rewrite Hw, Hh, Hp, Hcp. cbn [tl strokeLine points app].
  rewrite app_nil_r, strokeLines_recoloured. repeat split.
Qed.

Lemma overlay_matches_mask_witness :
  exists m view,
    generateMask Scenario.stroked = Some (CanvasPNG m) /\
    drawLoop Scenario.stroked = Some view /\
    surface_width view = canvas_width m /\
    surface_height view = canvas_height m /\
    layers view =
      ClearRect 0 0 800 600 ::
      DrawImage Scenario.photo800x600 0 0 ::
      map (fun op => Ink (recolour "rgba(255, 0, 0, 0.5)" op))
        (tl (painted m)).
Proof.
  apply (overlay_matches_mask Scenario.stroked Scenario.photo800x600);
    reflexivity.
Defined.

(** ** The application around the editor *)

(** X14. Whatever the state of the application, exactly one of the three
    alternatives of the main area is rendered (the upload prompt, the
    editor, the comparison), and the editor instance exists after
    rendering exactly when that alternative is the editor. *)
Theorem exactly_one_view (w : App.World) :
  (exists v, App.views (App.state w) = [v]) /\
  (App.editor (App.render w) <> None <->
   App.views (App.state w) = [App.Editing]).
Proof.
  unfold App.views, App.render.
  destruct (App.originalImage (App.state w)) as [orig|],
           (App.processedImage (App.state w)) as [proc|]; simpl.
  - split; [eexists; reflexivity|]. split; [congruence | discriminate].
  - split; [eexists; reflexivity|]. split; [reflexivity | discriminate].
  - split; [eexists; reflexivity|]. split; [congruence | discriminate].
  - split; [eexists; reflexivity|]. split; [congruence | discriminate].
Qed.

Lemma handleGenerate_awaits (w : App.World) (image mask : DataURL)
    (ed : Editor) :
  App.originalImage (App.state w) = Some image ->
  App.processedImage (App.state w) = None ->
  App.editor w = Some ed ->
  exists resume,
    App.handleGenerate mask w =
      App.Await
        (App.mkWorld
           (App.mkState (Some image) None true "小刘正在卖力擦除中...")
           (Some (withProcessing true ed)) (App.alerts w)
           (App.consoleErrors w))
        image mask resume /\
    (forall wk result,
        resume (App.Resolved result) wk =
          App.render (App.setIsProcessing false
                        (App.setProcessedImage (Some result) wk))) /\
    (forall wk err,
        resume (App.Rejected err) wk =
          App.render
            (App.setIsProcessing false
               (App.alert "处理失败，请稍后重试或检查网络设置。"
                  (App.console_error "Failed to process image:" err wk)))).
Proof.
  intros Ho Hp He. unfold App.handleGenerate. rewrite Ho.
  eexists. split.
  - rewrite (render_editing _ image ed); simpl; try assumption.
    rewrite Ho, Hp. reflexivity.
  - split; intros; reflexivity.
Qed.

(** X15. When a generation resolves, the comparison replaces the editor
    and the editor instance is dropped.  Going back, by cancel or by
    apply, mounts a fresh editor: the strokes and the viewport from before
    the generation are not kept.  Cancel keeps the original image; apply
    makes the result the new original. *)
Theorem generation_resolved_then_back (w : App.World) (image mask result : DataURL)
    (ed : Editor) :
  App.originalImage (App.state w) = Some image ->
  App.processedImage (App.state w) = None ->
  App.editor w = Some ed ->
  let shown := App.settle (App.handleGenerate mask w) (App.Resolved result) in
  (App.views (App.state shown) = [App.Comparison] /\
   App.processedImage (App.state shown) = Some result /\
   App.isProcessing (App.state shown) = false /\
   App.editor shown = None) /\
  (App.views (App.state (App.handleCancel shown)) = [App.Editing] /\
   App.originalImage (App.state (App.handleCancel shown)) = Some image /\
   App.editor (App.handleCancel shown) = Some (initialEditor false)) /\
  (App.views (App.state (App.handleApply shown)) = [App.Editing] /\
   App.originalImage (App.state (App.handleApply shown)) = Some result /\
   App.processedImage (App.state (App.handleApply shown)) = None /\
   App.editor (App.handleApply shown) = Some (initialEditor false)).
Proof.
  intros Ho Hp He.
  destruct (handleGenerate_awaits w image mask ed Ho Hp He)
    as (resume & Hawait & Hres & _).
  cbv zeta. rewrite Hawait. unfold App.settle. rewrite Hres.
  repeat split.
Qed.

Lemma generation_resolved_then_back_witness :
  let shown :=
    App.settle
      (App.handleGenerate (CanvasPNG (createCanvas 800 600)) Scenario.editing)
      (App.Resolved (FileData "clean")) in
  App.editor shown = None /\
  App.editor (App.handleCancel shown) = Some (initialEditor false) /\
  App.originalImage (App.state (App.handleApply shown)) =
    Some (FileData "clean").
Proof.
  destruct (generation_resolved_then_back Scenario.editing (FileData "photo")
              (CanvasPNG (createCanvas 800 600)) (FileData "clean")
              Scenario.stroked eq_refl eq_refl eq_refl)
    as ((_ & _ & _ & H1) & (_ & _ & H2) & (_ & H3 & _)).
  cbv zeta. split; [exact H1|]. split; [exact H2 | exact H3].
Defined.

Lemma actionsDisabled_processing (b : bool) (ed : Editor) :
  actionsDisabled (withProcessing b ed) =
    (Nat.eqb (length (paths ed)) 0 || b)%bool.
Proof. reflexivity. Qed.

(** X16. When the generate button gives a mask, the click starts one
    request with that mask.  While the request is in flight the button is
    disabled, so a second click starts nothing; after a rejection the
    button works again and a click sends the same mask. *)
Theorem one_request_at_a_time (w : App.World) (image mask : DataURL)
    (ed : Editor) :
  App.originalImage (App.state w) = Some image ->
  App.processedImage (App.state w) = None ->
  App.editor w = Some ed ->
  clickGenerate ed = Some mask ->
  exists inFlight resume,
    App.generateClicked w = App.Await inFlight image mask resume /\
    App.generateClicked inFlight = App.Return inFlight /\
    (forall err,
        exists inFlight' resume',
          App.generateClicked (resume (App.Rejected err) inFlight) =
            App.Await inFlight' image mask resume').
Proof.
  intros Ho Hp He Hclick.
  destruct (handleGenerate_awaits w image mask ed Ho Hp He)
    as (resume & Hawait & _ & Hrej).
  unfold clickGenerate in Hclick.
  destruct (actionsDisabled ed) eqn:Hdis; [discriminate|].
  unfold actionsDisabled in Hdis. apply orb_false_iff in Hdis.
  destruct Hdis as [Hlen Hbusy].
  do 2 eexists. split; [|split].
  - unfold App.generateClicked. rewrite He. unfold clickGenerate.
    unfold actionsDisabled. rewrite Hlen, Hbusy. simpl. rewrite Hclick.
    exact Hawait.
  - unfold App.generateClicked; simpl. unfold clickGenerate.
    rewrite actionsDisabled_processing, orb_true_r. reflexivity.
  - intros err. rewrite Hrej.
    rewrite (render_editing _ image (withProcessing true ed)); try reflexivity.
    unfold App.generateClicked; simpl. unfold clickGenerate.
    rewrite actionsDisabled_processing. simpl. rewrite Hlen. simpl.
    change (generateMask (withProcessing false (withProcessing true ed)))
      with (generateMask ed).
    rewrite Hclick. unfold App.handleGenerate; simpl.
    do 2 eexists. reflexivity.
Qed.

Lemma one_request_at_a_time_witness :
  exists mask inFlight resume,
    App.generateClicked Scenario.editing =
      App.Await inFlight (FileData "photo") mask resume /\
    App.generateClicked inFlight = App.Return inFlight.
Proof.
  destruct (generateMask_painted Scenario.stroked Scenario.photo800x600
              eq_refl) as (m & Hm & _).
  destruct (one_request_at_a_time Scenario.editing (FileData "photo")
              (CanvasPNG m) Scenario.stroked eq_refl eq_refl eq_refl)
    as (inFlight & resume & H1 & H2 & _).
  - unfold clickGenerate.
    replace (actionsDisabled Scenario.stroked) with false
      by (vm_compute; reflexivity).
    exact Hm.
  - exists (CanvasPNG m), inFlight, resume. split; assumption.
Defined.

(** ** The comparison slider *)

Lemma handleMove_position (cx : Q) (s : CompareView.State)
    (r : CompareView.DOMRect) :
  CompareView.containerRef s = Some r ->
  CompareView.sliderPosition (CompareView.handleMove cx s) =
    Qmax 0 (Qmin (cx - CompareView.left r) (CompareView.width r)) /
    CompareView.width r * 100.
Proof.
  intros Hr. unfold CompareView.handleMove. rewrite Hr. reflexivity.
Qed.

(** The pointer position cut to the compared area: the three cases. *)
Lemma cut_cases (a w : Q) :
  0 < w ->
  (a <= 0 /\ Qmax 0 (Qmin a w) == 0) \/
  (0 <= a <= w /\ Qmax 0 (Qmin a w) == a) \/
  (w <= a /\ Qmax 0 (Qmin a w) == w).
Proof.
  intros Hw.
  destruct (Q.min_spec a w) as [[H1 E1]|[H1 E1]];
    destruct (Q.max_spec 0 (Qmin a w)) as [[H2 E2]|[H2 E2]];
    rewrite E2; rewrite E1 in *.
  - right; left. split; [lra | reflexivity].
  - left. split; [lra | reflexivity].
  - right; right. split; [lra | reflexivity].
  - exfalso. lra.
Qed.

Lemma percent_bounds (v w : Q) :
  0 < w -> 0 <= v <= w -> 0 <= v / w * 100 <= 100.
Proof.
  intros Hw [Hlo Hhi].
  assert (H0 : 0 <= v / w) by (apply Qle_shift_div_l; [exact Hw | lra]).
  assert (H1 : v / w <= 1) by (apply Qle_shift_div_r; [exact Hw | lra]).
  lra.
Qed.

Lemma handleMove_in_range (cx : Q) (s : CompareView.State) :
  (forall r, CompareView.containerRef s = Some r -> 0 < CompareView.width r) ->
  CompareView.sliderInRange s ->
  CompareView.sliderInRange (CompareView.handleMove cx s).
Proof.
  intros Hw Hs. unfold CompareView.sliderInRange.
  destruct (CompareView.containerRef s) as [r|] eqn:Hr.
  - rewrite (handleMove_position cx s r Hr).
    specialize (Hw r eq_refl).
    apply percent_bounds; [exact Hw|].
    destruct (cut_cases (cx - CompareView.left r) (CompareView.width r) Hw)
      as [[? E]|[[? E]|[? E]]]; rewrite E; lra.
  - unfold CompareView.handleMove. rewrite Hr. exact Hs.
Qed.

Lemma compare_step_container (s : CompareView.State) (a : CompareView.Action) :
  CompareView.containerRef (CompareView.step s a) = CompareView.containerRef s.
Proof.
  destruct s as [c p held].
  destruct a; simpl; try reflexivity;
    unfold CompareView.handleMouseMove, CompareView.handleTouchMove,
      CompareView.handleMove;
    destruct held; simpl; try reflexivity;
    destruct c; reflexivity.
Qed.

(** X18. For a compared area of positive width the slider position stays
    between 0 and 100 through every sequence of handle presses, pointer
    and touch moves and releases, and so does the share by which the
    original image is clipped. *)
Theorem slider_stays_in_range (l : list CompareView.Action)
    (s : CompareView.State) :
  (forall r, CompareView.containerRef s = Some r -> 0 < CompareView.width r) ->
  CompareView.sliderInRange s ->
  CompareView.sliderInRange (CompareView.run s l) /\
  0 <= CompareView.clipInset (CompareView.run s l) <= 100.
Proof.
  intros Hw Hs.
  assert (H : CompareView.sliderInRange (CompareView.run s l)).
  { revert s Hw Hs. induction l as [|a l IH]; intros s Hw Hs; [exact Hs|].
    apply IH.
    - intros r Hr. rewrite compare_step_container in Hr. apply (Hw r Hr).
    - destruct a; simpl; try exact Hs;
        unfold CompareView.handleMouseMove, CompareView.handleTouchMove;
        destruct (CompareView.isResizing s); simpl; try exact Hs;
        apply handleMove_in_range; assumption. }
  split; [exact H|].
  unfold CompareView.clipInset. unfold CompareView.sliderInRange in H. lra.
Qed.

(** Dragging the handle far to the left, far to the right and back. *)
Lemma slider_stays_in_range_witness :
  CompareView.sliderInRange
    (CompareView.run Scenario.compared
       [CompareView.HandleDown; CompareView.MouseMoved (-50);
        CompareView.MouseMoved 5000; CompareView.TouchMoved 350;
        CompareView.Released]).
Proof.
  refine (proj1 (slider_stays_in_range
                   [CompareView.HandleDown; CompareView.MouseMoved (-50);
                    CompareView.MouseMoved 5000; CompareView.TouchMoved 350;
                    CompareView.Released] Scenario.compared _ _)).
  - intros r Hr. injection Hr as <-. vm_compute. reflexivity.
  - split; vm_compute; discriminate.
Defined.

(** X19. While the handle is held over a compared area of positive width,
    a pointer or touch move puts the slider at the pointer's share of the
    width in percent: 0 at or left of the left edge, 100 at or right of
    the right edge, proportional in between, and never decreasing as the
    pointer moves right. *)
Theorem slider_tracks_pointer (s : CompareView.State)
    (r : CompareView.DOMRect) (cx : Q) :
  CompareView.containerRef s = Some r -> 0 < CompareView.width r ->
  CompareView.isResizing s = true ->
  let position c :=
    CompareView.sliderPosition (CompareView.handleMouseMove c s) in
  (cx <= CompareView.left r -> position cx == 0) /\
  (CompareView.left r + CompareView.width r <= cx -> position cx == 100) /\
  (CompareView.left r <= cx <= CompareView.left r + CompareView.width r ->
   position cx == (cx - CompareView.left r) / CompareView.width r * 100) /\
  (forall cx', cx <= cx' -> position cx <= position cx') /\
  CompareView.handleTouchMove cx s = CompareView.handleMouseMove cx s.
Proof.
  intros Hr Hw Hres. cbv zeta.
  assert (Hpos : forall c,
             CompareView.sliderPosition (CompareView.handleMouseMove c s) =
             Qmax 0 (Qmin (c - CompareView.left r) (CompareView.width r)) /
             CompareView.width r * 100).
  { intros c. unfold CompareView.handleMouseMove. rewrite Hres. simpl.
    apply handleMove_position, Hr. }
  assert (Hne : ~ CompareView.width r == 0) by lra.
  split; [|split; [|split; [|split]]].
  - intros Hle. rewrite Hpos.
    destruct (cut_cases (cx - CompareView.left r) (CompareView.width r) Hw)
      as [[? E]|[[? E]|[? E]]]; rewrite E.
    + field. exact Hne.
    + assert (E0 : cx - CompareView.left r == 0) by lra.
      rewrite E0. field. exact Hne.
    + exfalso. lra.
  - intros Hge. rewrite Hpos.
    destruct (cut_cases (cx - CompareView.left r) (CompareView.width r) Hw)
      as [[? E]|[[? E]|[? E]]]; rewrite E.
    + exfalso. lra.
    + assert (E0 : cx - CompareView.left r == CompareView.width r) by lra.
      rewrite E0. field. exact Hne.
    + field. exact Hne.
  - intros [Hlo Hhi]. rewrite Hpos.
    destruct (cut_cases (cx - CompareView.left r) (CompareView.width r) Hw)
      as [[? E]|[[? E]|[? E]]]; rewrite E.
    + assert (E0 : cx - CompareView.left r == 0) by lra.
      rewrite E0. reflexivity.
    + reflexivity.
    + assert (E0 : cx - CompareView.left r == CompareView.width r) by lra.
      rewrite E0. reflexivity.
  - intros cx' Hle. rewrite !Hpos.
    apply Qmult_le_compat_r; [|lra].
    apply Qmult_le_compat_r;
      [|apply Qlt_le_weak, Qinv_lt_0_compat, Hw].
    destruct (cut_cases (cx - CompareView.left r) (CompareView.width r) Hw)
      as [[? E]|[[? E]|[? E]]]; rewrite E;
      destruct (cut_cases (cx' - CompareView.left r) (CompareView.width r) Hw)
        as [[? E']|[[? E']|[? E']]]; rewrite E'; lra.
  - reflexivity.
Qed.

(** On the 600 wide area starting at 200: the middle, and both ends. *)
Lemma slider_tracks_pointer_witness :
  let held := CompareView.handleMouseDown Scenario.compared in
  CompareView.sliderPosition (CompareView.handleMouseMove 350 held) == 25 /\
  CompareView.sliderPosition (CompareView.handleMouseMove 100 held) == 0 /\
  CompareView.sliderPosition (CompareView.handleMouseMove 900 held) == 100.
Proof.
  cbv zeta.
  destruct (slider_tracks_pointer
              (CompareView.handleMouseDown Scenario.compared)
              (CompareView.mkRect 200 600) 350 eq_refl eq_refl eq_refl)
    as (_ & _ & Hmid & _).
  destruct (slider_tracks_pointer
              (CompareView.handleMouseDown Scenario.compared)
              (CompareView.mkRect 200 600) 100 eq_refl eq_refl eq_refl)
    as (Hleft & _).
  destruct (slider_tracks_pointer
              (CompareView.handleMouseDown Scenario.compared)
              (CompareView.mkRect 200 600) 900 eq_refl eq_refl eq_refl)
    as (_ & Hright & _).
  cbv zeta in *. split; [|split].
  - rewrite Hmid; [vm_compute; reflexivity | split; vm_compute; discriminate].
  - apply Hleft. vm_compute. discriminate.
  - apply Hright. vm_compute. discriminate.
Defined.

(** X20. The slider moves only while its handle is held: once the handle
    is released (and before it is first pressed), no sequence of pointer
    and touch moves changes the state of the comparison view. *)
Theorem slider_ignores_moves_when_released (l : list CompareView.Action)
    (s : CompareView.State) :
  forallb CompareView.isMove l = true ->
  CompareView.run (CompareView.handleStop s) l = CompareView.handleStop s /\
  CompareView.run (CompareView.initialState (CompareView.containerRef s)) l =
    CompareView.initialState (CompareView.containerRef s).
Proof.
  intros Hl.
  assert (H : forall t, CompareView.isResizing t = false ->
                        CompareView.run t l = t).
  { intros t Ht. induction l as [|a l IH]; [reflexivity|].
    simpl in Hl. apply andb_true_iff in Hl. destruct Hl as [Ha Hl].
    destruct a; try discriminate Ha; simpl;
      unfold CompareView.handleMouseMove, CompareView.handleTouchMove;
      rewrite Ht; simpl; apply (IH Hl). }
  split; apply H; reflexivity.
Qed.

Lemma slider_ignores_moves_when_released_witness :
  CompareView.run (CompareView.handleStop Scenario.compared)
    [CompareView.MouseMoved 900; CompareView.TouchMoved 100] =
  CompareView.handleStop Scenario.compared.
Proof.
  apply (slider_ignores_moves_when_released
           [CompareView.MouseMoved 900; CompareView.TouchMoved 100]
           Scenario.compared eq_refl).
Defined.

(** X17. Replacing the image while the editor is on screen keeps the
    editor instance: once the new image has loaded into the attached
    container, the history is empty and the viewport is fitted to the new
    image, while the mode and the brush size are those chosen before. *)
Theorem replace_image_keeps_tools (w : App.World) (image url : DataURL)
    (ed : Editor) (c : Container) (img : ImageDimensions) :
  App.originalImage (App.state w) = Some image ->
  App.processedImage (App.state w) = None ->
  App.editor w = Some ed -> containerRef ed = Some c ->
  let w' :=
    App.editorAction (ImageLoaded img) (App.handleFileUpload (Some url) w) in
  App.views (App.state w') = [App.Editing] /\
  App.originalImage (App.state w') = Some url /\
  exists ed',
    App.editor w' = Some ed' /\
    imageRef ed' = Some img /\ paths ed' = [] /\
    scale ed' =
      Qmin (Qmin (clientWidth c / width img) (clientHeight c / height img)) 1
      * 0.9 /\
    mode ed' = mode ed /\ brushSize ed' = brushSize ed.
Proof.
  intros Ho Hp He Hc. cbv zeta. unfold App.handleFileUpload.
  rewrite (render_editing _ url ed); try reflexivity; [|exact He].
  unfold App.editorAction; simpl.
  split; [reflexivity|]. split; [reflexivity|].
  eexists. split; [reflexivity|].
  destruct (imageOnLoad_effect img
              (withProcessing (App.isProcessing (App.state w)) ed) c Hc)
    as (Hi & Hpaths & Hs & _ & Hm & Hb & _).
  repeat split; assumption.
Qed.

Lemma replace_image_keeps_tools_witness :
  let chosen :=
    App.mkWorld (App.state Scenario.editing)
      (Some (setBrushSize 35 (setMode PAN Scenario.stroked))) [] [] in
  exists ed',
    App.editor
      (App.editorAction (ImageLoaded Scenario.photo400x400)
         (App.handleFileUpload (Some (FileData "other")) chosen)) =
      Some ed' /\
    paths ed' = [] /\ mode ed' = PAN /\ brushSize ed' = 35.
Proof.
  cbv zeta.
  destruct (replace_image_keeps_tools
              (App.mkWorld (App.state Scenario.editing)
                 (Some (setBrushSize 35 (setMode PAN Scenario.stroked))) [] [])
              (FileData "photo") (FileData "other")
              (setBrushSize 35 (setMode PAN Scenario.stroked))
              Scenario.container1000x800 Scenario.photo400x400
              eq_refl eq_refl eq_refl eq_refl)
    as (_ & _ & ed' & He & _ & Hp & _ & Hm & Hb).
  exists ed'. repeat split; assumption.
Defined.

(** Three strokes: one undo keeps two, four undos keep none. *)
Lemma undo_iterated_witness :
  length
    (paths
       (Nat.iter 1 undo
          (run Scenario.ready
             (Scenario.drawGesture ++ Scenario.drawGesture ++
              Scenario.drawGesture)))) = 2%nat /\
  paths
    (Nat.iter 4 undo
       (run Scenario.ready
          (Scenario.drawGesture ++ Scenario.drawGesture ++
           Scenario.drawGesture))) = [].
Proof.
  split.
  - rewrite (proj1 (undo_iterated 1 _)). vm_compute. reflexivity.
  - apply (proj2 (undo_iterated 4 _)). vm_compute. lia.
Defined.
